(** * libkineto [Config]: a shallow embedding of [src/libkineto/src/Config.h]

    The header defines the concrete profiler configuration class together
    with its inline accessors, setters and the static helper [alignUp].
    Everything defined inline in the header is embedded below, function by
    function and under the names of the source.

    Conventions of the embedding:
    - a C++ integer of width w is a [Z] together with its range; an
      arithmetic step whose C++ meaning is undefined (signed overflow,
      [%] by zero, an over-wide shift) yields [Undefined];
    - [std::chrono] durations are their tick count ([rep] is a signed
      64-bit integer in libstdc++, libc++ and the MSVC library);
    - [std::set<std::string>] is a [gset string], [std::vector] a [list];
    - objects reached through pointers live in an explicit heap. *)

From Stdlib Require Import ZArith Lia Bool.
From stdpp Require Import base numbers option list strings gmap fin_maps fin_sets.

Local Open Scope Z_scope.
#[local] Set Warnings "-clear-no-such-hyp".

(** ** Outcomes of a C++ call *)

(** A call either returns, terminates the process through [abort()]
    (a failed [assert]), or has no defined meaning at all. *)
Inductive outcome (A : Type) : Type :=
  | Ret (a : A)
  | Abort
  | Undefined.
Arguments Ret {A} a.
Arguments Abort {A}.
Arguments Undefined {A}.

Definition obind {A B : Type} (m : outcome A) (k : A -> outcome B) : outcome B :=
  match m with
  | Ret a => k a
  | Abort => Abort
  | Undefined => Undefined
  end.

Notation "'do' x <- m ; k" := (obind m (fun x => k))
  (at level 10, x name, m at level 100, k at level 200).

Definition returns {A : Type} (m : outcome A) : Prop := exists a, m = Ret a.

(** ** Machine integers *)

Module Int.

Definition INT64_MIN : Z := - 2 ^ 63.
Definition INT64_MAX : Z := 2 ^ 63 - 1.

Definition in_int64 (z : Z) : Prop := INT64_MIN <= z <= INT64_MAX.
Definition in_uint8 (z : Z) : Prop := 0 <= z < 2 ^ 8.

Definition fits64 (z : Z) : bool := (INT64_MIN <=? z) && (z <=? INT64_MAX).

(** Two's complement reduction into the signed range of the width. *)
Definition to_int64 (z : Z) : Z := (z + 2 ^ 63) mod 2 ^ 64 - 2 ^ 63.
Definition to_int32 (z : Z) : Z := (z + 2 ^ 31) mod 2 ^ 32 - 2 ^ 31.
(** Conversion to [uint8_t]: reduction modulo 2^8. *)
Definition to_uint8 (z : Z) : Z := z mod 2 ^ 8.

(** Signed 64-bit [+], [-], [*]: overflow is undefined behaviour. *)
Definition add64 (x y : Z) : outcome Z :=
  if fits64 (x + y) then Ret (x + y) else Undefined.
Definition sub64 (x y : Z) : outcome Z :=
  if fits64 (x - y) then Ret (x - y) else Undefined.
Definition mul64 (x y : Z) : outcome Z :=
  if fits64 (x * y) then Ret (x * y) else Undefined.

(** Signed 64-bit [%]: truncating remainder; a zero divisor and the
    unrepresentable quotient [INT64_MIN / -1] are undefined behaviour. *)
Definition rem64 (x y : Z) : outcome Z :=
  if y =? 0 then Undefined
  else if (x =? INT64_MIN) && (y =? -1) then Undefined
  else Ret (Z.rem x y).

(** [x << n] on [int] for a non-negative [x] and an unsigned count [n]:
    undefined when the count reaches the width; otherwise the product
    converted to [int] (so [1 << 31] is [INT32_MIN]). *)
Definition shl32 (x n : Z) : outcome Z :=
  if (0 <=? n) && (n <? 32) then Ret (to_int32 (Z.shiftl x n)) else Undefined.

End Int.

(** ** [std::chrono] values *)

(** [std::chrono::milliseconds] and [std::chrono::seconds]: the tick count. *)
Definition milliseconds : Type := Z.
Definition seconds : Type := Z.

(** [std::chrono::time_point<Clock>]: the duration since the clock's epoch,
    counted in ticks of the clock. *)
Record time_point : Type := TimePoint { time_since_epoch : Z }.

(** [duration::count()]. *)
Definition count (d : Z) : Z := d.

(** ** [Config::alignUp] *)

(** [[
    static std::chrono::milliseconds alignUp(
        std::chrono::milliseconds duration,
        std::chrono::milliseconds alignment) {
      duration += alignment;
      return duration - (duration % alignment);
    }
    ]] *)
Definition alignUp (duration alignment : milliseconds) : outcome milliseconds :=
  do duration' <- Int.add64 duration alignment;
  do r <- Int.rem64 duration' alignment;
  Int.sub64 duration' r.

(** The same body on a target where signed [+] and [-] wrap around (two's
    complement hardware, [-fwrapv]); [%] keeps its undefined cases. *)
Definition alignUp_wrapping (duration alignment : milliseconds) : outcome milliseconds :=
  let duration' := Int.to_int64 (duration + alignment) in
  do r <- Int.rem64 duration' alignment;
  Ret (Int.to_int64 (duration' - r)).

(** What the specification asks of the result [r] of [alignUp(d, a)]. *)
Definition alignUp_post (d a r : Z) : Prop :=
  Z.rem r a = 0 /\ r > d - a /\ r >= d /\ (Z.rem d a = 0 -> r = d + a).

(** ** [assert] *)

(** [assert(e)] from [<assert.h>]: with the macro [NDEBUG] defined at the
    point of inclusion the assertion expands to nothing; otherwise a false
    argument writes a diagnostic and calls [abort()]. *)
Definition assert (NDEBUG : bool) (e : bool) : outcome unit :=
  if NDEBUG then Ret tt else if e then Ret tt else Abort.

(** ** The [Config] object *)

(** Addresses of heap objects; a pointer is [Some l], [nullptr] is [None]. *)
Definition loc : Type := positive.
Definition pointer : Type := option loc.
Definition nullptr : pointer := None.

(** The data members of [Config], in declaration order.  The first field
    stands for the base sub-object.

    Modelled from the spec: [AbstractConfig.h] is not among the sources, so
    the base class is reduced to what the spec's data model gives it, a
    mapping from feature name to an owned polymorphic feature-config
    instance, held here as a map from names to heap addresses. *)
Record Config : Type := {
  featureConfigs_ : gmap string loc;
  verboseLogLevel_ : Z;
  verboseLogModules_ : list string;
  samplePeriod_ : milliseconds;
  reportPeriod_ : milliseconds;
  samplesPerReport_ : Z;
  eventNames_ : gset string;
  metricNames_ : gset string;
  eventProfilerOnDemandDuration_ : seconds;
  eventProfilerOnDemandTimestamp_ : time_point;
  eventProfilerMaxInstancesPerGpu_ : Z;
  eventLogFile_ : string;
  eventReportPercentiles_ : list Z;
  eventProfilerDeviceMask_ : Z;
  multiplexPeriod_ : milliseconds;
  activityProfilerEnabled_ : bool;
  activitiesLogFile_ : string;
  activitiesMaxGpuBufferSize_ : Z;
  activitiesWarmupDuration_ : seconds;
  activitiesOnDemandDuration_ : milliseconds;
  activitiesExternalAPIIterations_ : Z;
  activitiesExternalAPIIterationsTarget_ : string;
  activitiesExternalAPIFilter_ : list string;
  activitiesExternalAPINetSizeThreshold_ : Z;
  activitiesExternalAPIGpuOpCountThreshold_ : Z;
  activitiesOnDemandTimestamp_ : time_point;
  requestTimestamp_ : time_point;
  enableSigUsr2_ : bool
}.

(** *** Inline accessors *)

Definition eventLogFile (c : Config) : string := eventLogFile_ c.
Definition activityProfilerEnabled (c : Config) : bool := activityProfilerEnabled_ c.
Definition activitiesLogFile (c : Config) : string := activitiesLogFile_ c.
Definition samplePeriod (c : Config) : milliseconds := samplePeriod_ c.
Definition multiplexPeriod (c : Config) : milliseconds := multiplexPeriod_ c.
Definition reportPeriod (c : Config) : milliseconds := reportPeriod_ c.
Definition samplesPerReport (c : Config) : Z := samplesPerReport_ c.
Definition eventNames (c : Config) : gset string := eventNames_ c.
Definition metricNames (c : Config) : gset string := metricNames_ c.
Definition percentiles (c : Config) : list Z := eventReportPercentiles_ c.
Definition eventProfilerOnDemandDuration (c : Config) : seconds :=
  eventProfilerOnDemandDuration_ c.
Definition maxEventProfilersPerGpu (c : Config) : Z := eventProfilerMaxInstancesPerGpu_ c.
Definition activitiesOnDemandDuration (c : Config) : milliseconds :=
  activitiesOnDemandDuration_ c.
Definition requestTimestamp (c : Config) : time_point := requestTimestamp_ c.
Definition eventProfilerOnDemandStartTime (c : Config) : time_point :=
  eventProfilerOnDemandTimestamp_ c.
Definition activityProfilerRequestReceivedTime (c : Config) : time_point :=
  activitiesOnDemandTimestamp_ c.

(** [[
    bool eventProfilerEnabledForDevice(uint32_t dev) const {
      return 0 != (eventProfilerDeviceMask_ & (1 << dev));
    }
    ]]
    The mask is promoted to [int]; [1 << dev] is an [int] shift. *)
Definition eventProfilerEnabledForDevice (c : Config) (dev : Z) : outcome bool :=
  do bit <- Int.shl32 1 dev;
  Ret (negb (0 =? Z.land (eventProfilerDeviceMask_ c) bit)).

(** [[
    bool hasRequestTimestamp() const {
      return requestTimestamp_.time_since_epoch().count() > 0;
    }
    ]] *)
Definition hasRequestTimestamp (c : Config) : bool :=
  count (time_since_epoch (requestTimestamp_ c)) >? 0.

(** *** Inline setters *)

(** [std::set::insert(first, last)]: the elements of the range are
    inserted one after the other, in iteration order. *)
Definition set_insert_range (s : gset string) (range : gset string) : gset string :=
  foldl (fun acc x => {[ x ]} ∪ acc) s (elements range).

(** [samplePeriod_ = period;] *)
Definition setSamplePeriod (period : milliseconds) (c : Config) : Config :=
  {| featureConfigs_ := featureConfigs_ c;
     verboseLogLevel_ := verboseLogLevel_ c;
     verboseLogModules_ := verboseLogModules_ c;
     samplePeriod_ := period;
     reportPeriod_ := reportPeriod_ c;
     samplesPerReport_ := samplesPerReport_ c;
     eventNames_ := eventNames_ c;
     metricNames_ := metricNames_ c;
     eventProfilerOnDemandDuration_ := eventProfilerOnDemandDuration_ c;
     eventProfilerOnDemandTimestamp_ := eventProfilerOnDemandTimestamp_ c;
     eventProfilerMaxInstancesPerGpu_ := eventProfilerMaxInstancesPerGpu_ c;
     eventLogFile_ := eventLogFile_ c;
     eventReportPercentiles_ := eventReportPercentiles_ c;
     eventProfilerDeviceMask_ := eventProfilerDeviceMask_ c;
     multiplexPeriod_ := multiplexPeriod_ c;
     activityProfilerEnabled_ := activityProfilerEnabled_ c;
     activitiesLogFile_ := activitiesLogFile_ c;
     activitiesMaxGpuBufferSize_ := activitiesMaxGpuBufferSize_ c;
     activitiesWarmupDuration_ := activitiesWarmupDuration_ c;
     activitiesOnDemandDuration_ := activitiesOnDemandDuration_ c;
     activitiesExternalAPIIterations_ := activitiesExternalAPIIterations_ c;
     activitiesExternalAPIIterationsTarget_ := activitiesExternalAPIIterationsTarget_ c;
     activitiesExternalAPIFilter_ := activitiesExternalAPIFilter_ c;
     activitiesExternalAPINetSizeThreshold_ := activitiesExternalAPINetSizeThreshold_ c;
     activitiesExternalAPIGpuOpCountThreshold_ := activitiesExternalAPIGpuOpCountThreshold_ c;
     activitiesOnDemandTimestamp_ := activitiesOnDemandTimestamp_ c;
     requestTimestamp_ := requestTimestamp_ c;
     enableSigUsr2_ := enableSigUsr2_ c |}.

(** [multiplexPeriod_ = period;] *)
Definition setMultiplexPeriod (period : milliseconds) (c : Config) : Config :=
  {| featureConfigs_ := featureConfigs_ c;
     verboseLogLevel_ := verboseLogLevel_ c;
     verboseLogModules_ := verboseLogModules_ c;
     samplePeriod_ := samplePeriod_ c;
     reportPeriod_ := reportPeriod_ c;
     samplesPerReport_ := samplesPerReport_ c;
     eventNames_ := eventNames_ c;
     metricNames_ := metricNames_ c;
     eventProfilerOnDemandDuration_ := eventProfilerOnDemandDuration_ c;
     eventProfilerOnDemandTimestamp_ := eventProfilerOnDemandTimestamp_ c;
     eventProfilerMaxInstancesPerGpu_ := eventProfilerMaxInstancesPerGpu_ c;
     eventLogFile_ := eventLogFile_ c;
     eventReportPercentiles_ := eventReportPercentiles_ c;
     eventProfilerDeviceMask_ := eventProfilerDeviceMask_ c;
     multiplexPeriod_ := period;
     activityProfilerEnabled_ := activityProfilerEnabled_ c;
     activitiesLogFile_ := activitiesLogFile_ c;
     activitiesMaxGpuBufferSize_ := activitiesMaxGpuBufferSize_ c;
     activitiesWarmupDuration_ := activitiesWarmupDuration_ c;
     activitiesOnDemandDuration_ := activitiesOnDemandDuration_ c;
     activitiesExternalAPIIterations_ := activitiesExternalAPIIterations_ c;
     activitiesExternalAPIIterationsTarget_ := activitiesExternalAPIIterationsTarget_ c;
     activitiesExternalAPIFilter_ := activitiesExternalAPIFilter_ c;
     activitiesExternalAPINetSizeThreshold_ := activitiesExternalAPINetSizeThreshold_ c;
     activitiesExternalAPIGpuOpCountThreshold_ := activitiesExternalAPIGpuOpCountThreshold_ c;
     activitiesOnDemandTimestamp_ := activitiesOnDemandTimestamp_ c;
     requestTimestamp_ := requestTimestamp_ c;
     enableSigUsr2_ := enableSigUsr2_ c |}.

(** [samplesPerReport_ = count;] *)
Definition setSamplesPerReport (count : Z) (c : Config) : Config :=
  {| featureConfigs_ := featureConfigs_ c;
     verboseLogLevel_ := verboseLogLevel_ c;
     verboseLogModules_ := verboseLogModules_ c;
     samplePeriod_ := samplePeriod_ c;
     reportPeriod_ := reportPeriod_ c;
     samplesPerReport_ := count;
     eventNames_ := eventNames_ c;
     metricNames_ := metricNames_ c;
     eventProfilerOnDemandDuration_ := eventProfilerOnDemandDuration_ c;
     eventProfilerOnDemandTimestamp_ := eventProfilerOnDemandTimestamp_ c;
     eventProfilerMaxInstancesPerGpu_ := eventProfilerMaxInstancesPerGpu_ c;
     eventLogFile_ := eventLogFile_ c;
     eventReportPercentiles_ := eventReportPercentiles_ c;
     eventProfilerDeviceMask_ := eventProfilerDeviceMask_ c;
     multiplexPeriod_ := multiplexPeriod_ c;
     activityProfilerEnabled_ := activityProfilerEnabled_ c;
     activitiesLogFile_ := activitiesLogFile_ c;
     activitiesMaxGpuBufferSize_ := activitiesMaxGpuBufferSize_ c;
     activitiesWarmupDuration_ := activitiesWarmupDuration_ c;
     activitiesOnDemandDuration_ := activitiesOnDemandDuration_ c;
     activitiesExternalAPIIterations_ := activitiesExternalAPIIterations_ c;
     activitiesExternalAPIIterationsTarget_ := activitiesExternalAPIIterationsTarget_ c;
     activitiesExternalAPIFilter_ := activitiesExternalAPIFilter_ c;
     activitiesExternalAPINetSizeThreshold_ := activitiesExternalAPINetSizeThreshold_ c;
     activitiesExternalAPIGpuOpCountThreshold_ := activitiesExternalAPIGpuOpCountThreshold_ c;
     activitiesOnDemandTimestamp_ := activitiesOnDemandTimestamp_ c;
     requestTimestamp_ := requestTimestamp_ c;
     enableSigUsr2_ := enableSigUsr2_ c |}.

(** [eventNames_.insert(names.begin(), names.end());] *)
Definition addEvents (names : gset string) (c : Config) : Config :=
  {| featureConfigs_ := featureConfigs_ c;
     verboseLogLevel_ := verboseLogLevel_ c;
     verboseLogModules_ := verboseLogModules_ c;
     samplePeriod_ := samplePeriod_ c;
     reportPeriod_ := reportPeriod_ c;
     samplesPerReport_ := samplesPerReport_ c;
     eventNames_ := set_insert_range (eventNames_ c) names;
     metricNames_ := metricNames_ c;
     eventProfilerOnDemandDuration_ := eventProfilerOnDemandDuration_ c;
     eventProfilerOnDemandTimestamp_ := eventProfilerOnDemandTimestamp_ c;
     eventProfilerMaxInstancesPerGpu_ := eventProfilerMaxInstancesPerGpu_ c;
     eventLogFile_ := eventLogFile_ c;
     eventReportPercentiles_ := eventReportPercentiles_ c;
     eventProfilerDeviceMask_ := eventProfilerDeviceMask_ c;
     multiplexPeriod_ := multiplexPeriod_ c;
     activityProfilerEnabled_ := activityProfilerEnabled_ c;
     activitiesLogFile_ := activitiesLogFile_ c;
     activitiesMaxGpuBufferSize_ := activitiesMaxGpuBufferSize_ c;
     activitiesWarmupDuration_ := activitiesWarmupDuration_ c;
     activitiesOnDemandDuration_ := activitiesOnDemandDuration_ c;
     activitiesExternalAPIIterations_ := activitiesExternalAPIIterations_ c;
     activitiesExternalAPIIterationsTarget_ := activitiesExternalAPIIterationsTarget_ c;
     activitiesExternalAPIFilter_ := activitiesExternalAPIFilter_ c;
     activitiesExternalAPINetSizeThreshold_ := activitiesExternalAPINetSizeThreshold_ c;
     activitiesExternalAPIGpuOpCountThreshold_ := activitiesExternalAPIGpuOpCountThreshold_ c;
     activitiesOnDemandTimestamp_ := activitiesOnDemandTimestamp_ c;
     requestTimestamp_ := requestTimestamp_ c;
     enableSigUsr2_ := enableSigUsr2_ c |}.

(** [metricNames_.insert(names.begin(), names.end());] *)
Definition addMetrics (names : gset string) (c : Config) : Config :=
  {| featureConfigs_ := featureConfigs_ c;
     verboseLogLevel_ := verboseLogLevel_ c;
     verboseLogModules_ := verboseLogModules_ c;
     samplePeriod_ := samplePeriod_ c;
     reportPeriod_ := reportPeriod_ c;
     samplesPerReport_ := samplesPerReport_ c;
     eventNames_ := eventNames_ c;
     metricNames_ := set_insert_range (metricNames_ c) names;
     eventProfilerOnDemandDuration_ := eventProfilerOnDemandDuration_ c;
     eventProfilerOnDemandTimestamp_ := eventProfilerOnDemandTimestamp_ c;
     eventProfilerMaxInstancesPerGpu_ := eventProfilerMaxInstancesPerGpu_ c;
     eventLogFile_ := eventLogFile_ c;
     eventReportPercentiles_ := eventReportPercentiles_ c;
     eventProfilerDeviceMask_ := eventProfilerDeviceMask_ c;
     multiplexPeriod_ := multiplexPeriod_ c;
     activityProfilerEnabled_ := activityProfilerEnabled_ c;
     activitiesLogFile_ := activitiesLogFile_ c;
     activitiesMaxGpuBufferSize_ := activitiesMaxGpuBufferSize_ c;
     activitiesWarmupDuration_ := activitiesWarmupDuration_ c;
     activitiesOnDemandDuration_ := activitiesOnDemandDuration_ c;
     activitiesExternalAPIIterations_ := activitiesExternalAPIIterations_ c;
     activitiesExternalAPIIterationsTarget_ := activitiesExternalAPIIterationsTarget_ c;
     activitiesExternalAPIFilter_ := activitiesExternalAPIFilter_ c;
     activitiesExternalAPINetSizeThreshold_ := activitiesExternalAPINetSizeThreshold_ c;
     activitiesExternalAPIGpuOpCountThreshold_ := activitiesExternalAPIGpuOpCountThreshold_ c;
     activitiesOnDemandTimestamp_ := activitiesOnDemandTimestamp_ c;
     requestTimestamp_ := requestTimestamp_ c;
     enableSigUsr2_ := enableSigUsr2_ c |}.

(** [eventProfilerOnDemandDuration_ = duration;] *)
Definition setEventProfilerOnDemandDuration (duration : seconds) (c : Config) : Config :=
  {| featureConfigs_ := featureConfigs_ c;
     verboseLogLevel_ := verboseLogLevel_ c;
     verboseLogModules_ := verboseLogModules_ c;
     samplePeriod_ := samplePeriod_ c;
     reportPeriod_ := reportPeriod_ c;
     samplesPerReport_ := samplesPerReport_ c;
     eventNames_ := eventNames_ c;
     metricNames_ := metricNames_ c;
     eventProfilerOnDemandDuration_ := duration;
     eventProfilerOnDemandTimestamp_ := eventProfilerOnDemandTimestamp_ c;
     eventProfilerMaxInstancesPerGpu_ := eventProfilerMaxInstancesPerGpu_ c;
     eventLogFile_ := eventLogFile_ c;
     eventReportPercentiles_ := eventReportPercentiles_ c;
     eventProfilerDeviceMask_ := eventProfilerDeviceMask_ c;
     multiplexPeriod_ := multiplexPeriod_ c;
     activityProfilerEnabled_ := activityProfilerEnabled_ c;
     activitiesLogFile_ := activitiesLogFile_ c;
     activitiesMaxGpuBufferSize_ := activitiesMaxGpuBufferSize_ c;
     activitiesWarmupDuration_ := activitiesWarmupDuration_ c;
     activitiesOnDemandDuration_ := activitiesOnDemandDuration_ c;
     activitiesExternalAPIIterations_ := activitiesExternalAPIIterations_ c;
     activitiesExternalAPIIterationsTarget_ := activitiesExternalAPIIterationsTarget_ c;
     activitiesExternalAPIFilter_ := activitiesExternalAPIFilter_ c;
     activitiesExternalAPINetSizeThreshold_ := activitiesExternalAPINetSizeThreshold_ c;
     activitiesExternalAPIGpuOpCountThreshold_ := activitiesExternalAPIGpuOpCountThreshold_ c;
     activitiesOnDemandTimestamp_ := activitiesOnDemandTimestamp_ c;
     requestTimestamp_ := requestTimestamp_ c;
     enableSigUsr2_ := enableSigUsr2_ c |}.

(** [activitiesOnDemandDuration_ = duration;] *)
Definition setActivitiesOnDemandDuration (duration : milliseconds) (c : Config) : Config :=
  {| featureConfigs_ := featureConfigs_ c;
     verboseLogLevel_ := verboseLogLevel_ c;
     verboseLogModules_ := verboseLogModules_ c;
     samplePeriod_ := samplePeriod_ c;
     reportPeriod_ := reportPeriod_ c;
     samplesPerReport_ := samplesPerReport_ c;
     eventNames_ := eventNames_ c;
     metricNames_ := metricNames_ c;
     eventProfilerOnDemandDuration_ := eventProfilerOnDemandDuration_ c;
     eventProfilerOnDemandTimestamp_ := eventProfilerOnDemandTimestamp_ c;
     eventProfilerMaxInstancesPerGpu_ := eventProfilerMaxInstancesPerGpu_ c;
     eventLogFile_ := eventLogFile_ c;
     eventReportPercentiles_ := eventReportPercentiles_ c;
     eventProfilerDeviceMask_ := eventProfilerDeviceMask_ c;
     multiplexPeriod_ := multiplexPeriod_ c;
     activityProfilerEnabled_ := activityProfilerEnabled_ c;
     activitiesLogFile_ := activitiesLogFile_ c;
     activitiesMaxGpuBufferSize_ := activitiesMaxGpuBufferSize_ c;
     activitiesWarmupDuration_ := activitiesWarmupDuration_ c;
     activitiesOnDemandDuration_ := duration;
     activitiesExternalAPIIterations_ := activitiesExternalAPIIterations_ c;
     activitiesExternalAPIIterationsTarget_ := activitiesExternalAPIIterationsTarget_ c;
     activitiesExternalAPIFilter_ := activitiesExternalAPIFilter_ c;
     activitiesExternalAPINetSizeThreshold_ := activitiesExternalAPINetSizeThreshold_ c;
     activitiesExternalAPIGpuOpCountThreshold_ := activitiesExternalAPIGpuOpCountThreshold_ c;
     activitiesOnDemandTimestamp_ := activitiesOnDemandTimestamp_ c;
     requestTimestamp_ := requestTimestamp_ c;
     enableSigUsr2_ := enableSigUsr2_ c |}.

(** Assignment to the base sub-object's feature map. *)
Definition set_featureConfigs (features : gmap string loc) (c : Config) : Config :=
  {| featureConfigs_ := features;
     verboseLogLevel_ := verboseLogLevel_ c;
     verboseLogModules_ := verboseLogModules_ c;
     samplePeriod_ := samplePeriod_ c;
     reportPeriod_ := reportPeriod_ c;
     samplesPerReport_ := samplesPerReport_ c;
     eventNames_ := eventNames_ c;
     metricNames_ := metricNames_ c;
     eventProfilerOnDemandDuration_ := eventProfilerOnDemandDuration_ c;
     eventProfilerOnDemandTimestamp_ := eventProfilerOnDemandTimestamp_ c;
     eventProfilerMaxInstancesPerGpu_ := eventProfilerMaxInstancesPerGpu_ c;
     eventLogFile_ := eventLogFile_ c;
     eventReportPercentiles_ := eventReportPercentiles_ c;
     eventProfilerDeviceMask_ := eventProfilerDeviceMask_ c;
     multiplexPeriod_ := multiplexPeriod_ c;
     activityProfilerEnabled_ := activityProfilerEnabled_ c;
     activitiesLogFile_ := activitiesLogFile_ c;
     activitiesMaxGpuBufferSize_ := activitiesMaxGpuBufferSize_ c;
     activitiesWarmupDuration_ := activitiesWarmupDuration_ c;
     activitiesOnDemandDuration_ := activitiesOnDemandDuration_ c;
     activitiesExternalAPIIterations_ := activitiesExternalAPIIterations_ c;
     activitiesExternalAPIIterationsTarget_ := activitiesExternalAPIIterationsTarget_ c;
     activitiesExternalAPIFilter_ := activitiesExternalAPIFilter_ c;
     activitiesExternalAPINetSizeThreshold_ := activitiesExternalAPINetSizeThreshold_ c;
     activitiesExternalAPIGpuOpCountThreshold_ := activitiesExternalAPIGpuOpCountThreshold_ c;
     activitiesOnDemandTimestamp_ := activitiesOnDemandTimestamp_ c;
     requestTimestamp_ := requestTimestamp_ c;
     enableSigUsr2_ := enableSigUsr2_ c |}.

(** *** Construction *)

(** [Config::Config()] is defined out of line (Config.cpp, not among the
    sources).  Two members carry a default member initializer in the class
    body, [eventReportPercentiles_ = {5, 25, 50, 75, 95}] and
    [eventProfilerDeviceMask_ = ~0]; what the constructor gives to the
    remaining members is taken from the argument. *)
Definition Config_ctor (c : Config) : Config :=
  {| featureConfigs_ := featureConfigs_ c;
     verboseLogLevel_ := verboseLogLevel_ c;
     verboseLogModules_ := verboseLogModules_ c;
     samplePeriod_ := samplePeriod_ c;
     reportPeriod_ := reportPeriod_ c;
     samplesPerReport_ := samplesPerReport_ c;
     eventNames_ := eventNames_ c;
     metricNames_ := metricNames_ c;
     eventProfilerOnDemandDuration_ := eventProfilerOnDemandDuration_ c;
     eventProfilerOnDemandTimestamp_ := eventProfilerOnDemandTimestamp_ c;
     eventProfilerMaxInstancesPerGpu_ := eventProfilerMaxInstancesPerGpu_ c;
     eventLogFile_ := eventLogFile_ c;
     eventReportPercentiles_ := [5; 25; 50; 75; 95];
     eventProfilerDeviceMask_ := Int.to_uint8 (Z.lnot 0);
     multiplexPeriod_ := multiplexPeriod_ c;
     activityProfilerEnabled_ := activityProfilerEnabled_ c;
     activitiesLogFile_ := activitiesLogFile_ c;
     activitiesMaxGpuBufferSize_ := activitiesMaxGpuBufferSize_ c;
     activitiesWarmupDuration_ := activitiesWarmupDuration_ c;
     activitiesOnDemandDuration_ := activitiesOnDemandDuration_ c;
     activitiesExternalAPIIterations_ := activitiesExternalAPIIterations_ c;
     activitiesExternalAPIIterationsTarget_ := activitiesExternalAPIIterationsTarget_ c;
     activitiesExternalAPIFilter_ := activitiesExternalAPIFilter_ c;
     activitiesExternalAPINetSizeThreshold_ := activitiesExternalAPINetSizeThreshold_ c;
     activitiesExternalAPIGpuOpCountThreshold_ := activitiesExternalAPIGpuOpCountThreshold_ c;
     activitiesOnDemandTimestamp_ := activitiesOnDemandTimestamp_ c;
     requestTimestamp_ := requestTimestamp_ c;
     enableSigUsr2_ := enableSigUsr2_ c |}.

(** *** The range invariant of [samplesPerReport]

    "Must be in the range [1, report period / sample period]"; the quotient
    of two durations is the truncating quotient of their counts. *)
Definition samplesPerReport_in_range (c : Config) : Prop :=
  1 <= samplesPerReport c <= Z.quot (count (reportPeriod c)) (count (samplePeriod c)).

(** ** On-demand window of the event profiler *)

Section Clock.

(** Ticks of [std::chrono::high_resolution_clock] per second (its period
    is implementation-defined; 10^9 where the clock counts nanoseconds). *)
Variable ticks_per_second : Z.

(** [time_point + seconds]: the seconds are converted to the clock's
    duration type, then the counts are added. *)
Definition time_point_plus (t : time_point) (d : seconds) : outcome time_point :=
  do d' <- Int.mul64 (count d) ticks_per_second;
  do e <- Int.add64 (time_since_epoch t) d';
  Ret (TimePoint e).

(** [[
    eventProfilerOnDemandEndTime() const {
      return eventProfilerOnDemandTimestamp_ + eventProfilerOnDemandDuration_;
    }
    ]] *)
Definition eventProfilerOnDemandEndTime (c : Config) : outcome time_point :=
  time_point_plus (eventProfilerOnDemandTimestamp_ c) (eventProfilerOnDemandDuration_ c).

(** The same sum on a target where signed arithmetic wraps around. *)
Definition eventProfilerOnDemandEndTime_wrapping (c : Config) : time_point :=
  TimePoint
    (Int.to_int64
       (time_since_epoch (eventProfilerOnDemandTimestamp_ c)
        + Int.to_int64 (count (eventProfilerOnDemandDuration_ c) * ticks_per_second))).

(** Modelled from the spec: the test itself is made by the callers of the
    two accessors, which are not among the sources.  "An on-demand request
    is active only while the current time lies within" the half-open window
    from the start time to the end time. *)
Definition eventProfilerOnDemandActive (c : Config) (now : time_point) : outcome bool :=
  do e <- eventProfilerOnDemandEndTime c;
  Ret ((time_since_epoch (eventProfilerOnDemandStartTime c) <=? time_since_epoch now)
       && (time_since_epoch now <? time_since_epoch e)).

End Clock.

(** ** [Config::cloneDerived] *)

(** [[
    AbstractConfig* cloneDerived() const override {
      // Clone from AbstractConfig not supported
      assert(false);
      return nullptr;
    }
    ]] *)
Definition cloneDerived (NDEBUG : bool) (c : Config) : outcome pointer :=
  do _ <- assert NDEBUG false;
  Ret nullptr.

(** ** Heap objects and [Config::clone] *)

Section Clone.

(** The state of a feature sub-config; the base class never looks into it. *)
Variable Feature : Type.

Inductive object : Type :=
  | ConfigObj (c : Config)
  | FeatureObj (f : Feature).

(** [new T(v)]: a fresh address holding a copy of [v]. *)
Definition new (o : object) (h : gmap loc object) : loc * gmap loc object :=
  let l := fresh (dom h) in (l, <[l := o]> h).

(** Modelled from the spec: the feature classes are not among the sources.
    [cloneDerived] "must be overridden by every concrete leaf type to
    return a type-correct copy of itself": called through a pointer to a
    feature object it allocates a new feature object with the same state. *)
Definition feature_cloneDerived (p : loc) (h : gmap loc object)
  : outcome (loc * gmap loc object) :=
  match h !! p with
  | Some (FeatureObj f) => Ret (new (FeatureObj f) h)
  | _ => Undefined
  end.

(** [cfg.featureConfigs_[name] = q;] *)
Definition assign_feature (cfg : loc) (name : string) (q : loc) (h : gmap loc object)
  : outcome (gmap loc object) :=
  match h !! cfg with
  | Some (ConfigObj c) =>
      Ret (<[cfg := ConfigObj (set_featureConfigs (<[name := q]> (featureConfigs_ c)) c)]> h)
  | _ => Undefined
  end.

(** Modelled from the spec: [AbstractConfig::cloneFeaturesInto] is declared
    in [AbstractConfig.h], which is not among the sources.  It "copies every
    currently-registered feature sub-config into a target instance,
    deep-cloning each one polymorphically through its own virtual clone".
    The entries are visited one by one; the order of the visit only decides
    which fresh address each copy receives. *)
Fixpoint cloneFeatures_loop (features : list (string * loc)) (cfg : loc)
    (h : gmap loc object) : outcome (gmap loc object) :=
  match features with
  | [] => Ret h
  | (name, p) :: rest =>
      do r <- feature_cloneDerived p h;
      do h' <- assign_feature cfg name r.1 r.2;
      cloneFeatures_loop rest cfg h'
  end.

Definition cloneFeaturesInto (this cfg : loc) (h : gmap loc object)
  : outcome (gmap loc object) :=
  match h !! this with
  | Some (ConfigObj c) => cloneFeatures_loop (map_to_list (featureConfigs_ c)) cfg h
  | _ => Undefined
  end.

(** [[
    std::unique_ptr<Config> clone() {
      auto cfg = std::unique_ptr<Config>(new Config( *this ));
      cloneFeaturesInto( *cfg );
      return cfg;
    }
    ]]
    The copy constructor is defaulted: it copies every member, and with the
    base sub-object the feature map, whose entries are addresses. *)
Definition clone (this : loc) (h : gmap loc object) : outcome (loc * gmap loc object) :=
  match h !! this with
  | Some (ConfigObj c) =>
      let '(cfg, h1) := new (ConfigObj c) h in
      do h2 <- cloneFeaturesInto this cfg h1;
      Ret (cfg, h2)
  | _ => Undefined
  end.

(** The addresses a configuration owns: its own and those of its feature
    sub-configs. *)
Definition owned (this : loc) (c : Config) : gset loc :=
  {[ this ]} ∪ map_img (featureConfigs_ c).

(** Every feature pointer of [c] leads to a live feature object. *)
Definition features_allocated (h : gmap loc object) (c : Config) : Prop :=
  forall name p, featureConfigs_ c !! name = Some p ->
                 exists f, h !! p = Some (FeatureObj f).

End Clone.

Arguments ConfigObj {Feature} c.
Arguments FeatureObj {Feature} f.

(** ** Calls of the inline setters *)

(** One call of one of the setters the header defines inline. *)
Inductive setter_call : Type :=
  | CallSetSamplePeriod (period : milliseconds)
  | CallSetMultiplexPeriod (period : milliseconds)
  | CallSetSamplesPerReport (count : Z)
  | CallAddEvents (names : gset string)
  | CallAddMetrics (names : gset string)
  | CallSetEventProfilerOnDemandDuration (duration : seconds)
  | CallSetActivitiesOnDemandDuration (duration : milliseconds).

Definition run_setter (c : Config) (call : setter_call) : Config :=
  match call with
  | CallSetSamplePeriod period => setSamplePeriod period c
  | CallSetMultiplexPeriod period => setMultiplexPeriod period c
  | CallSetSamplesPerReport count => setSamplesPerReport count c
  | CallAddEvents names => addEvents names c
  | CallAddMetrics names => addMetrics names c
  | CallSetEventProfilerOnDemandDuration duration =>
      setEventProfilerOnDemandDuration duration c
  | CallSetActivitiesOnDemandDuration duration =>
      setActivitiesOnDemandDuration duration c
  end.

(** A sequence of calls, first to last. *)
Definition run_setters (c : Config) (calls : list setter_call) : Config :=
  foldl run_setter c calls.

(** ** A concrete configuration *)

Definition sampleConfig : Config :=
  {| featureConfigs_ := {[ "featureX"%string := 2%positive ]};
     verboseLogLevel_ := -1;
     verboseLogModules_ := [];
     samplePeriod_ := 100;
     reportPeriod_ := 1000;
     samplesPerReport_ := 1;
     eventNames_ := {[ "inst_executed"%string ]};
     metricNames_ := ∅;
     eventProfilerOnDemandDuration_ := 30;
     eventProfilerOnDemandTimestamp_ := TimePoint 5000000000;
     eventProfilerMaxInstancesPerGpu_ := 1;
     eventLogFile_ := "events.log";
     eventReportPercentiles_ := [5; 25; 50; 75; 95];
     eventProfilerDeviceMask_ := 37;
     multiplexPeriod_ := 1000;
     activityProfilerEnabled_ := true;
     activitiesLogFile_ := "trace.json";
     activitiesMaxGpuBufferSize_ := 128;
     activitiesWarmupDuration_ := 5;
     activitiesOnDemandDuration_ := 500;
     activitiesExternalAPIIterations_ := 3;
     activitiesExternalAPIIterationsTarget_ := "net";
     activitiesExternalAPIFilter_ := [];
     activitiesExternalAPINetSizeThreshold_ := 0;
     activitiesExternalAPIGpuOpCountThreshold_ := 0;
     activitiesOnDemandTimestamp_ := TimePoint 0;
     requestTimestamp_ := TimePoint 0;
     enableSigUsr2_ := false |}.

Definition sampleHeap : gmap loc (object string) :=
  {[ 1%positive := ConfigObj sampleConfig;
     2%positive := FeatureObj "threshold=3"%string ]}.

(** * Properties *)

(** ** Facts about the machine arithmetic *)

Module IntFacts.
Import Int.

Lemma fits64_true z : fits64 z = true <-> in_int64 z.
Proof. unfold fits64, in_int64. rewrite andb_true_iff, !Z.leb_le. tauto. Qed.

Lemma add64_ok x y : in_int64 (x + y) -> add64 x y = Ret (x + y).
Proof. intros H. unfold add64. apply fits64_true in H. now rewrite H. Qed.

Lemma sub64_ok x y : in_int64 (x - y) -> sub64 x y = Ret (x - y).
Proof. intros H. unfold sub64. apply fits64_true in H. now rewrite H. Qed.

Lemma mul64_ok x y : in_int64 (x * y) -> mul64 x y = Ret (x * y).
Proof. intros H. unfold mul64. apply fits64_true in H. now rewrite H. Qed.

Lemma add64_cases x y : add64 x y = Ret (x + y) \/ add64 x y = Undefined.
Proof. unfold add64. destruct (fits64 (x + y)); auto. Qed.

Lemma add64_inv x y r : add64 x y = Ret r -> r = x + y /\ in_int64 (x + y).
Proof.
  unfold add64. destruct (fits64 (x + y)) eqn:E; [|discriminate].
  intros [= <-]. split; [reflexivity | now apply fits64_true].
Qed.

Lemma mul64_inv x y r : mul64 x y = Ret r -> r = x * y /\ in_int64 (x * y).
Proof.
  unfold mul64. destruct (fits64 (x * y)) eqn:E; [|discriminate].
  intros [= <-]. split; [reflexivity | now apply fits64_true].
Qed.

Lemma rem64_pos x y : 0 < y -> rem64 x y = Ret (Z.rem x y).
Proof.
  intros Hy. unfold rem64.
  destruct (Z.eqb_spec y 0) as [->|_]; [lia|].
  destruct (Z.eqb_spec y (-1)) as [->|_]; [lia|].
  now rewrite andb_false_r.
Qed.

Lemma rem64_zero x : rem64 x 0 = Undefined.
Proof. reflexivity. Qed.

(** The truncating remainder by a positive divisor, split by the sign of
    the dividend. *)
Lemma rem_pos_divisor s a :
  0 < a ->
  s = a * Z.quot s a + Z.rem s a
  /\ ((0 <= s /\ 0 <= Z.rem s a < a) \/ (s < 0 /\ - a < Z.rem s a <= 0)).
Proof.
  intros Ha. split.
  - apply Z.quot_rem'.
  - destruct (Z.le_gt_cases 0 s) as [Hs|Hs].
    + left. split; [assumption|]. apply Z.rem_bound_pos; lia.
    + right. split; [assumption|].
      pose proof (Z.rem_bound_pos_neg s a ltac:(lia) ltac:(lia)). lia.
Qed.

Lemma rem_multiple_step d a : 0 < a -> Z.rem d a = 0 -> Z.rem (d + a) a = 0.
Proof.
  intros Ha Hd.
  pose proof (Z.quot_rem' d a) as E. rewrite Hd, Z.add_0_r in E.
  replace (d + a) with ((Z.quot d a + 1) * a) by lia.
  apply Z.rem_mul. lia.
Qed.

End IntFacts.

(** ** [alignUp] *)

(** The value computed when no step overflows. *)
Lemma alignUp_value d a :
  Int.in_int64 d -> Int.in_int64 a -> 0 < a -> d + a <= Int.INT64_MAX ->
  alignUp d a = Ret (a * Z.quot (d + a) a).
Proof.
  intros Hd Ha Hpos Hsum. unfold alignUp.
  assert (Hs : Int.in_int64 (d + a)).
  { unfold Int.in_int64, Int.INT64_MIN, Int.INT64_MAX in *. lia. }
  rewrite (IntFacts.add64_ok _ _ Hs). cbn [obind].
  rewrite (IntFacts.rem64_pos _ _ Hpos). cbn [obind].
  destruct (IntFacts.rem_pos_divisor (d + a) a Hpos) as [E B].
  assert (Hr : d + a - Z.rem (d + a) a = a * Z.quot (d + a) a) by lia.
  rewrite IntFacts.sub64_ok.
  - now rewrite Hr.
  - unfold Int.in_int64, Int.INT64_MIN, Int.INT64_MAX in *. lia.
Qed.

(** C1 (amended): for every duration [d] and every alignment [a > 0] whose
    sum [d + a] still fits the 64-bit tick count, [alignUp(d, a)] returns a
    value [r] with [r % a == 0], [r > d - a] and [r >= d]; when [d] is an
    exact multiple of [a] the result is the next boundary [d + a]. *)
Theorem alignUp_aligned (d a : Z) :
  Int.in_int64 d -> Int.in_int64 a -> 0 < a -> d + a <= Int.INT64_MAX ->
  exists r, alignUp d a = Ret r /\ alignUp_post d a r.
Proof.
  intros Hd Ha Hpos Hsum.
  exists (a * Z.quot (d + a) a). split; [now apply alignUp_value|].
  destruct (IntFacts.rem_pos_divisor (d + a) a Hpos) as [E B].
  unfold alignUp_post. repeat split.
  - rewrite Z.mul_comm. apply Z.rem_mul. lia.
  - lia.
  - lia.
  - intros Hm. pose proof (IntFacts.rem_multiple_step d a Hpos Hm). lia.
Qed.

Lemma alignUp_aligned_witness :
  exists r, alignUp 250 100 = Ret r /\ alignUp_post 250 100 r.
Proof.
  apply (alignUp_aligned 250 100);
    unfold Int.in_int64, Int.INT64_MIN, Int.INT64_MAX; lia.
Defined.

Example alignUp_250_100 : alignUp 250 100 = Ret 300.
Proof. reflexivity. Qed.

Example alignUp_exact_multiple : alignUp 300 100 = Ret 400.
Proof. reflexivity. Qed.

Example alignUp_negative : alignUp (-7) 3 = Ret (-3).
Proof. reflexivity. Qed.

(** C1 as stated fails at the top of the range: for [d = INT64_MAX] and
    [a = 1] the sum overflows, so no result with the required properties is
    returned; where the overflow wraps around, the value that comes back is
    [INT64_MIN], far below [d]. *)
Lemma alignUp_overflow_counterexample :
  Int.in_int64 Int.INT64_MAX /\ Int.in_int64 1 /\ 0 < 1
  /\ alignUp Int.INT64_MAX 1 = Undefined
  /\ ~ (exists r, alignUp Int.INT64_MAX 1 = Ret r /\ alignUp_post Int.INT64_MAX 1 r)
  /\ alignUp_wrapping Int.INT64_MAX 1 = Ret Int.INT64_MIN
  /\ ~ alignUp_post Int.INT64_MAX 1 Int.INT64_MIN.
Proof.
  assert (E : alignUp Int.INT64_MAX 1 = Undefined) by reflexivity.
  split; [unfold Int.in_int64, Int.INT64_MIN, Int.INT64_MAX; lia|].
  split; [unfold Int.in_int64, Int.INT64_MIN, Int.INT64_MAX; lia|].
  split; [lia|].
  split; [exact E|].
  split; [intros (r & Hr & _); rewrite E in Hr; discriminate|].
  split; [reflexivity|].
  intros (_ & _ & H & _).
  unfold Int.INT64_MIN, Int.INT64_MAX in H. lia.
Qed.

(** C2: with a zero alignment the body reaches [duration % alignment] with a
    zero divisor; nothing guards it, so the call has no defined outcome: it
    neither returns nor aborts. *)
Theorem alignUp_zero_alignment_undefined (d : Z) :
  alignUp d 0 = Undefined /\ alignUp_wrapping d 0 = Undefined.
Proof.
  split; [|reflexivity].
  unfold alignUp.
  destruct (IntFacts.add64_cases d 0) as [E|E]; rewrite E; reflexivity.
Qed.

(** ** [setSamplesPerReport] and the range of [samplesPerReport] *)

(** C3 (amended): [setSamplesPerReport(count)] stores [count] as it is and
    leaves the report period and the sample period alone; the stored value
    lies in [1, reportPeriod / samplePeriod] after the call exactly when
    [count] itself does. *)
Theorem setSamplesPerReport_stores (n : Z) (c : Config) :
  samplesPerReport (setSamplesPerReport n c) = n
  /\ reportPeriod (setSamplesPerReport n c) = reportPeriod c
  /\ samplePeriod (setSamplesPerReport n c) = samplePeriod c
  /\ (samplesPerReport_in_range (setSamplesPerReport n c)
      <-> 1 <= n <= Z.quot (count (reportPeriod c)) (count (samplePeriod c))).
Proof.
  split; [reflexivity|]. split; [reflexivity|]. split; [reflexivity|].
  unfold samplesPerReport_in_range, samplesPerReport, reportPeriod, samplePeriod.
  cbn. tauto.
Qed.

(** C3 as stated fails: with a report period of 1000 ms and a sample period
    of 100 ms, [setSamplesPerReport(0)] leaves 0 in the field, and
    [setSamplesPerReport(11)] leaves 11, above the quotient 10. *)
Lemma setSamplesPerReport_counterexample :
  reportPeriod sampleConfig >= samplePeriod sampleConfig
  /\ samplesPerReport_in_range sampleConfig
  /\ samplesPerReport (setSamplesPerReport 0 sampleConfig) = 0
  /\ ~ samplesPerReport_in_range (setSamplesPerReport 0 sampleConfig)
  /\ ~ samplesPerReport_in_range (setSamplesPerReport 11 sampleConfig).
Proof.
  assert (Q : Z.quot 1000 100 = 10) by reflexivity.
  unfold samplesPerReport_in_range, samplesPerReport, reportPeriod, samplePeriod, count.
  cbn. rewrite Q. lia.
Qed.

(** ** [cloneDerived] *)

(** C4 (amended): with assertions compiled in, [cloneDerived()] aborts on
    the failed assertion; with [NDEBUG] defined the assertion is gone and the
    call returns the null pointer. *)
Theorem cloneDerived_outcome (NDEBUG : bool) (c : Config) :
  cloneDerived NDEBUG c = if NDEBUG then Ret nullptr else Abort.
Proof. destruct NDEBUG; reflexivity. Qed.

(** C4 as stated fails in a build with [NDEBUG]: the call returns, and what
    it returns is the null pointer. *)
Lemma cloneDerived_counterexample :
  cloneDerived true sampleConfig = Ret nullptr
  /\ cloneDerived true sampleConfig <> Abort.
Proof. split; [reflexivity | discriminate]. Qed.

(** ** [hasRequestTimestamp] *)

(** C10: [hasRequestTimestamp()] is true exactly when the tick count of the
    request timestamp since the epoch is strictly positive; a timestamp at
    the epoch or before it is reported as absent. *)
Theorem hasRequestTimestamp_iff (c : Config) :
  (hasRequestTimestamp c = true
     <-> 0 < count (time_since_epoch (requestTimestamp c)))
  /\ (hasRequestTimestamp c = false
     <-> count (time_since_epoch (requestTimestamp c)) <= 0).
Proof.
  unfold hasRequestTimestamp, requestTimestamp.
  rewrite Z.gtb_ltb.
  destruct (Z.ltb_spec 0 (count (time_since_epoch (requestTimestamp_ c))));
    split; split; intros; try lia; try reflexivity; discriminate || lia.
Qed.

Example hasRequestTimestamp_at_epoch : hasRequestTimestamp sampleConfig = false.
Proof. reflexivity. Qed.

(** ** [addEvents] and [addMetrics] *)

Lemma foldl_insert_union (l : list string) (s : gset string) :
  foldl (fun acc x => {[ x ]} ∪ acc) s l = s ∪ list_to_set l.
Proof.
  revert s. induction l as [|x l IH]; intros s; cbn.
  - set_solver.
  - rewrite IH. set_solver.
Qed.

Lemma set_insert_range_union (s range : gset string) :
  set_insert_range s range = s ∪ range.
Proof.
  unfold set_insert_range.
  rewrite foldl_insert_union, list_to_set_elements_L. reflexivity.
Qed.

(** C7: [addEvents] and [addMetrics] merge: the resulting set is the union
    of the names already there with the added ones, nothing already there is
    dropped, and adding the same names a second time changes nothing. *)
Theorem addEvents_addMetrics_union (names : gset string) (c : Config) :
  eventNames (addEvents names c) = eventNames c ∪ names
  /\ metricNames (addMetrics names c) = metricNames c ∪ names
  /\ eventNames c ⊆ eventNames (addEvents names c)
  /\ metricNames c ⊆ metricNames (addMetrics names c)
  /\ addEvents names (addEvents names c) = addEvents names c
  /\ addMetrics names (addMetrics names c) = addMetrics names c.
Proof.
  assert (He : eventNames (addEvents names c) = eventNames c ∪ names)
    by apply set_insert_range_union.
  assert (Hm : metricNames (addMetrics names c) = metricNames c ∪ names)
    by apply set_insert_range_union.
  repeat split.
  - exact He.
  - exact Hm.
  - rewrite He. set_solver.
  - rewrite Hm. set_solver.
  - unfold addEvents; cbn. f_equal.
    rewrite !set_insert_range_union. set_solver.
  - unfold addMetrics; cbn. f_equal.
    rewrite !set_insert_range_union. set_solver.
Qed.

Example addEvents_sample :
  eventNames (addEvents {[ "inst_executed"%string; "gld_inst"%string ]} sampleConfig)
  = {[ "inst_executed"%string; "gld_inst"%string ]}.
Proof.
  destruct (addEvents_addMetrics_union
              {[ "inst_executed"%string; "gld_inst"%string ]} sampleConfig) as [-> _].
  cbn. set_solver.
Qed.

(** ** The device mask *)

(** The bit selected by [1 << dev] for each shift count the [int] type
    admits. *)
Lemma shl32_one (dev : Z) :
  0 <= dev <= 31 -> Int.shl32 1 dev = Ret (Int.to_int32 (2 ^ dev)).
Proof.
  intros H. unfold Int.shl32.
  destruct (Z.leb_spec 0 dev); [|lia].
  destruct (Z.ltb_spec dev 32); [|lia].
  cbn [andb]. rewrite Z.shiftl_1_l. reflexivity.
Qed.

Lemma to_int32_mod_256 (z : Z) : Int.to_int32 z mod 2 ^ 8 = z mod 2 ^ 8.
Proof.
  unfold Int.to_int32.
  pose proof (Z.div_mod (z + 2 ^ 31) (2 ^ 32) ltac:(lia)) as E.
  replace ((z + 2 ^ 31) mod 2 ^ 32 - 2 ^ 31)
    with (z + (- (2 ^ 24 * ((z + 2 ^ 31) / 2 ^ 32))) * 2 ^ 8) by lia.
  apply Z.mod_add. lia.
Qed.

(** A value confined to the low eight bits meets no bit of a multiple of 2^8. *)
Lemma land_uint8_high (m x : Z) :
  Int.in_uint8 m -> x mod 2 ^ 8 = 0 -> Z.land m x = 0.
Proof.
  intros Hm Hx. unfold Int.in_uint8 in Hm.
  rewrite <- (Z.mod_small m (2 ^ 8)) by lia.
  rewrite <- Z.land_ones by lia.
  rewrite <- Z.land_assoc, (Z.land_comm (Z.ones 8) x), Z.land_ones by lia.
  rewrite Hx. apply Z.land_0_r.
Qed.

Lemma pow2_high_mod_256 (dev : Z) : 8 <= dev -> 2 ^ dev mod 2 ^ 8 = 0.
Proof.
  intros H. replace dev with ((dev - 8) + 8) by lia.
  rewrite Z.pow_add_r by lia. apply Z.mod_mul. lia.
Qed.

(** The low eight bits, one by one. *)
Lemma land_255_low_bit (dev : Z) :
  0 <= dev < 8 -> Z.land 255 (Int.to_int32 (2 ^ dev)) <> 0.
Proof.
  intros H.
  assert (D : dev = 0 \/ dev = 1 \/ dev = 2 \/ dev = 3
              \/ dev = 4 \/ dev = 5 \/ dev = 6 \/ dev = 7) by lia.
  destruct D as [->|[->|[->|[->|[->|[->|[->| ->]]]]]]]; discriminate.
Qed.

(** C8: a freshly constructed [Config] reports the percentiles
    5, 25, 50, 75, 95, and its device mask has every bit set:
    [eventProfilerEnabledForDevice(dev)] is true for each of the eight
    device indices the mask has a bit for. *)
Theorem Config_ctor_defaults (init : Config) :
  percentiles (Config_ctor init) = [5; 25; 50; 75; 95]
  /\ eventProfilerDeviceMask_ (Config_ctor init) = 255
  /\ forall dev, 0 <= dev < 8 ->
       eventProfilerEnabledForDevice (Config_ctor init) dev = Ret true.
Proof.
  split; [reflexivity|]. split; [reflexivity|].
  intros dev H. unfold eventProfilerEnabledForDevice.
  rewrite shl32_one by lia. cbn [obind]. f_equal.
  change (eventProfilerDeviceMask_ (Config_ctor init)) with 255.
  pose proof (land_255_low_bit dev H) as N.
  destruct (Z.eqb_spec 0 (Z.land 255 (Int.to_int32 (2 ^ dev)))); [congruence|reflexivity].
Qed.

Lemma Config_ctor_defaults_witness :
  0 <= 3 < 8 /\ eventProfilerEnabledForDevice (Config_ctor sampleConfig) 3 = Ret true.
Proof.
  split; [lia|].
  apply (Config_ctor_defaults sampleConfig). lia.
Defined.

(** C9: the mask is eight bits wide, so for every device index from 8 to 31
    [eventProfilerEnabledForDevice(dev)] is false whatever the mask holds. *)
Theorem eventProfilerEnabledForDevice_high (c : Config) (dev : Z) :
  Int.in_uint8 (eventProfilerDeviceMask_ c) ->
  8 <= dev <= 31 ->
  eventProfilerEnabledForDevice c dev = Ret false.
Proof.
  intros Hm Hd. unfold eventProfilerEnabledForDevice.
  rewrite shl32_one by lia. cbn [obind]. f_equal.
  rewrite land_uint8_high; [reflexivity | assumption |].
  rewrite to_int32_mod_256. apply pow2_high_mod_256. lia.
Qed.

Lemma eventProfilerEnabledForDevice_high_witness :
  eventProfilerEnabledForDevice (Config_ctor sampleConfig) 8 = Ret false
  /\ eventProfilerEnabledForDevice (Config_ctor sampleConfig) 31 = Ret false.
Proof.
  assert (M : Int.in_uint8 (eventProfilerDeviceMask_ (Config_ctor sampleConfig))).
  { change (Int.in_uint8 255). unfold Int.in_uint8. lia. }
  split; apply eventProfilerEnabledForDevice_high; (exact M || lia).
Defined.

Example device_mask_37 :
  eventProfilerEnabledForDevice sampleConfig 0 = Ret true
  /\ eventProfilerEnabledForDevice sampleConfig 1 = Ret false
  /\ eventProfilerEnabledForDevice sampleConfig 2 = Ret true
  /\ eventProfilerEnabledForDevice sampleConfig 5 = Ret true
  /\ eventProfilerEnabledForDevice sampleConfig 32 = Undefined.
Proof. repeat split. Qed.

(** ** The on-demand window of the event profiler *)

Section OnDemandWindow.

Variable ticks_per_second : Z.

Lemma time_point_plus_inv (t : time_point) (d : seconds) (e : time_point) :
  time_point_plus ticks_per_second t d = Ret e ->
  time_since_epoch e = time_since_epoch t + count d * ticks_per_second
  /\ Int.in_int64 (count d * ticks_per_second)
  /\ Int.in_int64 (time_since_epoch t + count d * ticks_per_second).
Proof.
  unfold time_point_plus.
  destruct (Int.mul64 (count d) ticks_per_second) as [d'| |] eqn:Em;
    cbn [obind]; try discriminate.
  apply IntFacts.mul64_inv in Em as [-> Hm].
  destruct (Int.add64 (time_since_epoch t) (count d * ticks_per_second))
    as [s| |] eqn:Ea; cbn [obind]; try discriminate.
  apply IntFacts.add64_inv in Ea as [-> Ha].
  intros [= <-]. cbn. auto.
Qed.

Lemma time_point_plus_ok (t : time_point) (d : seconds) :
  Int.in_int64 (count d * ticks_per_second) ->
  Int.in_int64 (time_since_epoch t + count d * ticks_per_second) ->
  time_point_plus ticks_per_second t d
  = Ret (TimePoint (time_since_epoch t + count d * ticks_per_second)).
Proof.
  intros Hm Ha. unfold time_point_plus.
  rewrite (IntFacts.mul64_ok _ _ Hm). cbn [obind].
  rewrite (IntFacts.add64_ok _ _ Ha). reflexivity.
Qed.

(** The window test in terms of the end time, whatever the end time is. *)
Lemma eventProfilerOnDemandActive_inv (c : Config) (now : time_point) (b : bool) :
  eventProfilerOnDemandActive ticks_per_second c now = Ret b ->
  exists e, eventProfilerOnDemandEndTime ticks_per_second c = Ret e
            /\ b = ((time_since_epoch (eventProfilerOnDemandStartTime c)
                     <=? time_since_epoch now)
                    && (time_since_epoch now <? time_since_epoch e)).
Proof.
  unfold eventProfilerOnDemandActive.
  destruct (eventProfilerOnDemandEndTime ticks_per_second c) as [e| |];
    cbn [obind]; try discriminate.
  intros [= <-]. now exists e.
Qed.

(** C6 (amended): for every [Config] whose on-demand duration, converted to
    clock ticks, and whose sum of start time and duration both fit the signed
    64-bit tick count, [eventProfilerOnDemandEndTime()] returns the start
    time plus the duration, so the request is active at a time [now] exactly
    when [start <= now < start + duration], and inactive otherwise. *)
Theorem eventProfilerOnDemandEndTime_window_in_range (c : Config) :
  let start := time_since_epoch (eventProfilerOnDemandStartTime c) in
  let duration := count (eventProfilerOnDemandDuration c) * ticks_per_second in
  Int.in_int64 duration ->
  Int.in_int64 (start + duration) ->
  eventProfilerOnDemandEndTime ticks_per_second c = Ret (TimePoint (start + duration))
  /\ (forall now,
        eventProfilerOnDemandActive ticks_per_second c now = Ret true
        <-> start <= time_since_epoch now < start + duration)
  /\ (forall now,
        eventProfilerOnDemandActive ticks_per_second c now = Ret false
        <-> ~ (start <= time_since_epoch now < start + duration)).
Proof.
  intros start duration Hm Ha. subst start duration.
  unfold eventProfilerOnDemandStartTime, eventProfilerOnDemandDuration in *.
  assert (E : eventProfilerOnDemandEndTime ticks_per_second c
              = Ret (TimePoint (time_since_epoch (eventProfilerOnDemandTimestamp_ c)
                                + count (eventProfilerOnDemandDuration_ c)
                                  * ticks_per_second)))
    by now apply time_point_plus_ok.
  split; [exact E|].
  split; intros now;
    unfold eventProfilerOnDemandActive, eventProfilerOnDemandStartTime;
    rewrite E; cbn [obind time_since_epoch];
    destruct (Z.leb_spec (time_since_epoch (eventProfilerOnDemandTimestamp_ c))
                (time_since_epoch now)) as [L|L];
    destruct (Z.ltb_spec (time_since_epoch now)
                (time_since_epoch (eventProfilerOnDemandTimestamp_ c)
                 + count (eventProfilerOnDemandDuration_ c) * ticks_per_second))
      as [U|U];
    cbn [andb];
    (split; [intros Hb; first [discriminate Hb | lia]
            | intros Hw; first [reflexivity | lia]]).
Qed.

End OnDemandWindow.

(** The example of the specification on a nanosecond clock: a request
    stamped at [T] with a duration of 30 s is active at [T + 29 s] and no
    longer at [T + 31 s]. *)
Lemma eventProfilerOnDemandEndTime_window_in_range_witness :
  eventProfilerOnDemandEndTime (10 ^ 9) sampleConfig = Ret (TimePoint 35000000000)
  /\ eventProfilerOnDemandActive (10 ^ 9) sampleConfig (TimePoint 34000000000) = Ret true
  /\ eventProfilerOnDemandActive (10 ^ 9) sampleConfig (TimePoint 36000000000) = Ret false.
Proof.
  assert (Hm : Int.in_int64 (count (eventProfilerOnDemandDuration sampleConfig) * 10 ^ 9)).
  { unfold Int.in_int64, Int.INT64_MIN, Int.INT64_MAX. cbn. lia. }
  assert (Ha : Int.in_int64
                 (time_since_epoch (eventProfilerOnDemandStartTime sampleConfig)
                  + count (eventProfilerOnDemandDuration sampleConfig) * 10 ^ 9)).
  { unfold Int.in_int64, Int.INT64_MIN, Int.INT64_MAX. cbn. lia. }
  destruct (eventProfilerOnDemandEndTime_window_in_range (10 ^ 9) sampleConfig Hm Ha)
    as (Hend & Hact & Hinact).
  split; [exact Hend|]. split.
  - apply Hact. cbn. lia.
  - apply Hinact. cbn. lia.
Defined.

(** C6 as stated fails for a long duration: after
    [setEventProfilerOnDemandDuration(9223372037 s)] on a nanosecond clock
    the conversion of the duration to ticks leaves the 64-bit range.  The
    end time is then not the start time plus the duration: no end time is
    returned, and where the arithmetic wraps around the end time lies before
    the start time.  The instant one tick after the start, which is inside
    [start, start + duration), is not reported active. *)
Lemma eventProfilerOnDemandEndTime_overflow_counterexample :
  let c := setEventProfilerOnDemandDuration 9223372037 sampleConfig in
  let start := time_since_epoch (eventProfilerOnDemandStartTime c) in
  let duration := count (eventProfilerOnDemandDuration c) * 10 ^ 9 in
  Int.in_int64 (count (eventProfilerOnDemandDuration c))
  /\ Int.in_int64 start
  /\ start <= start + 1 < start + duration
  /\ eventProfilerOnDemandEndTime (10 ^ 9) c = Undefined
  /\ ~ (exists e, eventProfilerOnDemandEndTime (10 ^ 9) c = Ret e
                  /\ time_since_epoch e = start + duration)
  /\ eventProfilerOnDemandActive (10 ^ 9) c (TimePoint (start + 1)) <> Ret true
  /\ time_since_epoch (eventProfilerOnDemandEndTime_wrapping (10 ^ 9) c) < start.
Proof.
  intros c start duration.
  assert (E : eventProfilerOnDemandEndTime (10 ^ 9) c = Undefined) by reflexivity.
  assert (Hs : start = 5000000000) by reflexivity.
  assert (Hd : duration = 9223372037000000000) by reflexivity.
  assert (Hw : time_since_epoch (eventProfilerOnDemandEndTime_wrapping (10 ^ 9) c)
               = -9223372031709551616) by reflexivity.
  rewrite Hw. clearbody start duration. subst start duration.
  split; [unfold Int.in_int64, Int.INT64_MIN, Int.INT64_MAX; cbn; lia|].
  split; [unfold Int.in_int64, Int.INT64_MIN, Int.INT64_MAX; lia|].
  split; [lia|].
  split; [exact E|].
  split; [intros (e & He & _); rewrite E in He; discriminate|].
  split; [|lia].
  intros H. apply eventProfilerOnDemandActive_inv in H as (e & He & _).
  rewrite E in He. discriminate.
Qed.


(** ** [clone] *)

Section CloneFacts.

Context {Feature : Type}.
Implicit Types (h : gmap loc (object Feature)) (c : Config) (l p cfg this : loc).

Lemma set_featureConfigs_twice (F F' : gmap string loc) c :
  set_featureConfigs F' (set_featureConfigs F c) = set_featureConfigs F' c.
Proof. reflexivity. Qed.

Lemma new_fresh (o : object Feature) h :
  h !! (new Feature o h).1 = None
  /\ (new Feature o h).2 = <[(new Feature o h).1 := o]> h.
Proof.
  unfold new; cbn. split; [|reflexivity].
  apply not_elem_of_dom, is_fresh.
Qed.

Lemma feature_cloneDerived_ok p h (f : Feature) :
  h !! p = Some (FeatureObj f) ->
  exists q, feature_cloneDerived Feature p h = Ret (q, <[q := FeatureObj f]> h)
            /\ h !! q = None.
Proof.
  intros Hp. unfold feature_cloneDerived. rewrite Hp.
  exists (fresh (dom h)). split; [reflexivity|].
  apply not_elem_of_dom, is_fresh.
Qed.

(** The loop of [cloneFeaturesInto]: [h0] is the heap before the call of
    [clone], [h] the heap the loop starts from. *)
Lemma cloneFeatures_loop_spec (fs : list (string * loc)) :
  forall cfg (h0 h : gmap loc (object Feature)) c,
    NoDup fs.*1 ->
    (forall l o, h0 !! l = Some o -> h !! l = Some o) ->
    h0 !! cfg = None ->
    h !! cfg = Some (ConfigObj c) ->
    (forall name p, (name, p) ∈ fs -> exists f, h0 !! p = Some (FeatureObj f)) ->
    exists h' F',
      cloneFeatures_loop Feature fs cfg h = Ret h'
      /\ h' !! cfg = Some (ConfigObj (set_featureConfigs F' c))
      /\ (forall l o, h !! l = Some o -> l <> cfg -> h' !! l = Some o)
      /\ (forall name, name ∉ fs.*1 -> F' !! name = featureConfigs_ c !! name)
      /\ (forall name p, (name, p) ∈ fs ->
            exists p', F' !! name = Some p' /\ h !! p' = None
                       /\ h' !! p' = h0 !! p).
Proof.
  induction fs as [|[n p] rest IH]; intros cfg h0 h c Hnd Hsub Hcfg0 Hcfg Hfs.
  - exists h, (featureConfigs_ c). cbn. split; [reflexivity|].
    split; [destruct c; exact Hcfg|].
    split; [auto|]. split; [auto|].
    intros name q Hin. inversion Hin.
  - cbn in Hnd. apply NoDup_cons in Hnd as [Hn Hnd].
    destruct (Hfs n p) as [f Hf]; [left|].
    pose proof (Hsub _ _ Hf) as Hp.
    destruct (feature_cloneDerived_ok p h f Hp) as (q & Hq & Hfresh).
    assert (Hqcfg : q <> cfg) by (intros ->; congruence).
    cbn [cloneFeatures_loop]. rewrite Hq. cbn [obind fst snd].
    unfold assign_feature. rewrite lookup_insert_ne by exact Hqcfg.
    rewrite Hcfg. cbn [obind].
    set (c2 := set_featureConfigs (<[n := q]> (featureConfigs_ c)) c).
    set (h2 := <[cfg := ConfigObj c2]> (<[q := FeatureObj f]> h)).
    assert (Hh2 : forall l o, h !! l = Some o -> l <> cfg -> h2 !! l = Some o).
    { intros l o Hl Hne. unfold h2.
      rewrite lookup_insert_ne by congruence.
      rewrite lookup_insert_ne by (intros ->; congruence). exact Hl. }
    destruct (IH cfg h0 h2 c2) as (h' & F' & Hrun & Hc' & Hpres & Hout & Hin).
    + exact Hnd.
    + intros l o Hl. apply Hh2; [now apply Hsub | intros ->; congruence].
    + exact Hcfg0.
    + unfold h2. apply lookup_insert_eq.
    + intros name p0 Hm. apply (Hfs name p0). now right.
    + exists h', F'. split; [exact Hrun|].
      split; [exact Hc'|].
      split; [intros l o Hl Hne; apply Hpres; [now apply Hh2 | exact Hne]|].
      split.
      * intros name Hname. cbn in Hname.
        apply not_elem_of_cons in Hname as [Hne Hname].
        rewrite (Hout name Hname). unfold c2; cbn.
        now rewrite lookup_insert_ne.
      * intros name p0 Hm. apply elem_of_cons in Hm as [[= -> ->]|Hm].
        -- exists q. rewrite (Hout n Hn). unfold c2; cbn.
           rewrite lookup_insert_eq. split; [reflexivity|].
           split; [exact Hfresh|]. rewrite Hf.
           apply Hpres; [|exact Hqcfg].
           unfold h2. rewrite lookup_insert_ne by congruence.
           apply lookup_insert_eq.
        -- destruct (Hin name p0 Hm) as (p' & HF & Hnone & Hsame).
           exists p'. split; [exact HF|]. split; [|exact Hsame].
           destruct (h !! p') as [o|] eqn:Hp'; [|reflexivity].
           destruct (decide (p' = cfg)) as [->|Hne].
           ++ unfold h2 in Hnone. rewrite lookup_insert_eq in Hnone. discriminate.
           ++ rewrite (Hh2 _ _ Hp' Hne) in Hnone. discriminate.
Qed.

(** C5: [clone()] of a configuration with any number of feature
    sub-configs returns a deep, independent copy.  The clone is a new
    object with the same members; each feature sub-config has a new object
    of its own with the same state; every object that existed before is
    left as it was; the clone owns no address the source owns; and
    overwriting any object the clone owns, the clone itself or any of its
    feature sub-configs, changes nothing the source owns. *)
Theorem clone_deep_independent h this c :
  h !! this = Some (ConfigObj c) ->
  features_allocated Feature h c ->
  exists cfg h' c',
    clone Feature this h = Ret (cfg, h')
    /\ h' !! cfg = Some (ConfigObj c')
    /\ c' = set_featureConfigs (featureConfigs_ c') c
    /\ dom (featureConfigs_ c') = dom (featureConfigs_ c)
    /\ (forall name p, featureConfigs_ c !! name = Some p ->
          exists p', featureConfigs_ c' !! name = Some p' /\ h' !! p' = h !! p)
    /\ (forall l o, h !! l = Some o -> h' !! l = Some o)
    /\ owned this c ⊆ dom h
    /\ owned cfg c' ## dom h
    /\ owned cfg c' ## owned this c
    /\ (forall m o l, m ∈ owned cfg c' -> l ∈ owned this c ->
          <[m := o]> h' !! l = h !! l).
Proof.
  intros Hthis Hfeat. unfold clone. rewrite Hthis.
  destruct (new_fresh (ConfigObj c) h) as [Hfresh Hnew].
  destruct (new Feature (ConfigObj c) h) as [cfg h1] eqn:En.
  cbn [fst snd] in Hfresh, Hnew. subst h1.
  assert (Hne : this <> cfg) by (intros ->; congruence).
  unfold cloneFeaturesInto. rewrite lookup_insert_ne by congruence.
  rewrite Hthis.
  destruct (cloneFeatures_loop_spec (map_to_list (featureConfigs_ c))
              cfg h (<[cfg := ConfigObj c]> h) c)
    as (h' & F' & Hrun & Hc' & Hpres & Hout & Hin).
  { apply NoDup_fst_map_to_list. }
  { intros l o Hl. rewrite lookup_insert_ne by (intros ->; congruence). exact Hl. }
  { exact Hfresh. }
  { apply lookup_insert_eq. }
  { intros name p Hm. apply elem_of_map_to_list in Hm. eapply Hfeat, Hm. }
  rewrite Hrun. cbn [obind].
  (* what the feature map of the clone holds *)
  assert (HF : forall name, featureConfigs_ c !! name = None -> F' !! name = None).
  { intros name Hnone. rewrite Hout; [exact Hnone|].
    intros Hm. apply list_elem_of_fmap in Hm as ([n p] & -> & Hm).
    apply elem_of_map_to_list in Hm. cbn in Hnone. congruence. }
  assert (HS : forall name p, featureConfigs_ c !! name = Some p ->
                 exists p', F' !! name = Some p' /\ h !! p' = None
                            /\ h' !! p' = h !! p).
  { intros name p Hm. apply elem_of_map_to_list in Hm.
    destruct (Hin name p Hm) as (p' & H1 & H2 & H3).
    exists p'. split; [exact H1|]. split; [|exact H3].
    destruct (decide (p' = cfg)) as [->|Hd].
    - rewrite lookup_insert_eq in H2. discriminate.
    - now rewrite lookup_insert_ne in H2 by congruence. }
  assert (Hold : forall l o, h !! l = Some o -> h' !! l = Some o).
  { intros l o Hl. apply Hpres; [|intros ->; congruence].
    rewrite lookup_insert_ne by (intros ->; congruence). exact Hl. }
  assert (Hsrc : owned this c ⊆ dom h).
  { intros l Hl. unfold owned in Hl. apply elem_of_union in Hl as [Hl|Hl].
    - apply elem_of_singleton in Hl as ->. apply elem_of_dom. eauto.
    - apply elem_of_map_img in Hl as [name Hl].
      destruct (Hfeat name l Hl) as [f Hf]. apply elem_of_dom. eauto. }
  assert (Hdst : owned cfg (set_featureConfigs F' c) ## dom h).
  { intros l Hl Hd. apply elem_of_dom in Hd as [o Ho].
    unfold owned in Hl. apply elem_of_union in Hl as [Hl|Hl].
    - apply elem_of_singleton in Hl as ->. congruence.
    - apply elem_of_map_img in Hl as [name Hl]. cbn in Hl.
      destruct (featureConfigs_ c !! name) as [p|] eqn:Hp.
      + destruct (HS name p Hp) as (p' & H1 & H2 & _). congruence.
      + rewrite (HF name Hp) in Hl. discriminate. }
  exists cfg, h', (set_featureConfigs F' c).
  split; [reflexivity|]. split; [exact Hc'|]. split; [reflexivity|].
  split.
  { apply set_eq. intros name. rewrite !elem_of_dom. cbn.
    destruct (featureConfigs_ c !! name) as [p|] eqn:Hp.
    - destruct (HS name p Hp) as (p' & -> & _). split; eauto.
    - rewrite (HF name Hp). reflexivity. }
  split.
  { intros name p Hp. destruct (HS name p Hp) as (p' & H1 & _ & H3).
    exists p'. split; [exact H1 | exact H3]. }
  split; [exact Hold|]. split; [exact Hsrc|]. split; [exact Hdst|].
  split.
  { intros l Hl1 Hl2. apply (Hdst l Hl1). now apply Hsrc. }
  intros m o l Hm Hl.
  assert (Hml : m <> l).
  { intros ->. apply (Hdst l Hm). now apply Hsrc. }
  rewrite lookup_insert_ne by exact Hml.
  apply Hsrc, elem_of_dom in Hl as [o' Ho'].
  rewrite Ho'. now apply Hold.
Qed.

End CloneFacts.

(** A configuration with one feature sub-config, cloned. *)
Lemma clone_deep_independent_witness :
  exists cfg h' c',
    clone string 1%positive sampleHeap = Ret (cfg, h')
    /\ h' !! cfg = Some (ConfigObj c')
    /\ (exists p', featureConfigs_ c' !! "featureX"%string = Some p'
                   /\ h' !! p' = Some (FeatureObj "threshold=3"%string)
                   /\ p' <> 2%positive)
    /\ forall m o, m ∈ owned cfg c' ->
         <[m := o]> h' !! 1%positive = Some (ConfigObj sampleConfig)
         /\ <[m := o]> h' !! 2%positive = Some (FeatureObj "threshold=3"%string).
Proof.
  assert (H1 : sampleHeap !! 1%positive = Some (ConfigObj sampleConfig))
    by reflexivity.
  assert (H2 : sampleHeap !! 2%positive = Some (FeatureObj "threshold=3"%string))
    by reflexivity.
  assert (HX : featureConfigs_ sampleConfig !! "featureX"%string = Some 2%positive)
    by reflexivity.
  assert (Hall : features_allocated string sampleHeap sampleConfig).
  { intros name p Hp. cbn in Hp.
    apply lookup_singleton_Some in Hp as [_ <-]. eauto. }
  destruct (clone_deep_independent sampleHeap 1%positive sampleConfig H1 Hall)
    as (cfg & h' & c' & Hrun & Hcfg & _ & _ & Hcopy & _ & Hsrc & Hdst & _ & Hind).
  exists cfg, h', c'. split; [exact Hrun|]. split; [exact Hcfg|]. split.
  - destruct (Hcopy _ _ HX) as (p' & Hp' & Hs). exists p'.
    split; [exact Hp'|]. split; [exact (eq_trans Hs H2)|].
    intros ->. apply (Hdst 2%positive).
    + unfold owned. apply elem_of_union_r, elem_of_map_img. eauto.
    + apply elem_of_dom. eauto.
  - intros m o Hm. split.
    + refine (eq_trans (Hind m o 1%positive Hm _) H1).
      unfold owned. apply elem_of_union_l, elem_of_singleton. reflexivity.
    + refine (eq_trans (Hind m o 2%positive Hm _) H2).
      unfold owned. apply elem_of_union_r, elem_of_map_img. eauto.
Defined.


(** * Further properties of the header's functions *)

(** ** [alignUp]: when it returns and what it returns *)

Lemma rem64_ok (s a : Z) :
  a <> 0 -> ~ (s = Int.INT64_MIN /\ a = -1) -> Int.rem64 s a = Ret (Z.rem s a).
Proof.
  intros Ha Hm. unfold Int.rem64.
  destruct (Z.eqb_spec a 0) as [->|_]; [congruence|].
  destruct (Z.eqb_spec s Int.INT64_MIN) as [Hs|_];
    destruct (Z.eqb_spec a (-1)) as [Ha1|_]; cbn [andb]; try reflexivity.
  exfalso. apply Hm. split; assumption.
Qed.

Lemma rem64_inv (s a r : Z) :
  Int.rem64 s a = Ret r ->
  r = Z.rem s a /\ a <> 0 /\ ~ (s = Int.INT64_MIN /\ a = -1).
Proof.
  unfold Int.rem64.
  destruct (Z.eqb_spec a 0) as [->|Ha]; [discriminate|].
  destruct (Z.eqb_spec s Int.INT64_MIN) as [Hs|Hs];
    destruct (Z.eqb_spec a (-1)) as [Ha1|Ha1]; cbn [andb]; try discriminate;
    intros [= <-]; (split; [reflexivity|]); (split; [exact Ha|]);
    intros [? ?]; congruence.
Qed.

Lemma sub64_inv (x y r : Z) :
  Int.sub64 x y = Ret r -> r = x - y /\ Int.in_int64 (x - y).
Proof.
  unfold Int.sub64. destruct (Int.fits64 (x - y)) eqn:E; [|discriminate].
  intros [= <-]. split; [reflexivity | now apply IntFacts.fits64_true].
Qed.

(** The multiple of [a] obtained by truncating [s] towards zero lies between
    zero and [s]. *)
Lemma trunc_multiple_between (s a : Z) :
  a <> 0 ->
  s - Z.rem s a = a * Z.quot s a
  /\ (0 <= s -> 0 <= a * Z.quot s a <= s)
  /\ (s <= 0 -> s <= a * Z.quot s a <= 0).
Proof.
  intros Ha. split; [pose proof (Z.quot_rem' s a); lia|]. split; intros Hs.
  - now apply Z.mul_quot_le.
  - now apply Z.mul_quot_ge.
Qed.

(** The value of [alignUp] for an alignment of either sign. *)
Lemma alignUp_value_nonzero (d a : Z) :
  a <> 0 -> Int.in_int64 (d + a) ->
  ~ (d + a = Int.INT64_MIN /\ a = -1) ->
  alignUp d a = Ret (a * Z.quot (d + a) a).
Proof.
  intros Ha Hs Hm. unfold alignUp.
  rewrite (IntFacts.add64_ok _ _ Hs). cbn [obind].
  rewrite (rem64_ok _ _ Ha Hm). cbn [obind].
  destruct (trunc_multiple_between (d + a) a Ha) as (E & Hpos & Hneg).
  rewrite IntFacts.sub64_ok; [now rewrite E|]. rewrite E.
  unfold Int.in_int64, Int.INT64_MIN, Int.INT64_MAX in *.
  destruct (Z.le_gt_cases 0 (d + a));
    [specialize (Hpos ltac:(lia)) | specialize (Hneg ltac:(lia))]; lia.
Qed.

Lemma alignUp_inv (d a r : Z) :
  alignUp d a = Ret r ->
  r = a * Z.quot (d + a) a /\ a <> 0 /\ Int.in_int64 (d + a)
  /\ ~ (d + a = Int.INT64_MIN /\ a = -1) /\ Int.in_int64 r.
Proof.
  unfold alignUp.
  destruct (Int.add64 d a) as [s| |] eqn:Es; cbn [obind]; try discriminate.
  apply IntFacts.add64_inv in Es as [-> Hs].
  destruct (Int.rem64 (d + a) a) as [m| |] eqn:Em; cbn [obind]; try discriminate.
  apply rem64_inv in Em as (-> & Ha & Hm).
  intros Hr. apply sub64_inv in Hr as [-> Hr].
  destruct (trunc_multiple_between (d + a) a Ha) as (E & _).
  rewrite E in Hr |- *. auto.
Qed.

(** [alignUp(d, a)] returns exactly when the alignment is not zero, the sum
    [d + a] fits the 64-bit count, and the remainder is not the one
    unrepresentable case [INT64_MIN % -1]; the final subtraction never
    overflows. *)
Theorem alignUp_returns_iff (d a : Z) :
  returns (alignUp d a)
  <-> a <> 0 /\ Int.in_int64 (d + a) /\ ~ (d + a = Int.INT64_MIN /\ a = -1).
Proof.
  split.
  - intros [r Hr]. apply alignUp_inv in Hr as (_ & Ha & Hs & Hm & _). auto.
  - intros (Ha & Hs & Hm). eexists. now apply alignUp_value_nonzero.
Qed.

(** For an alignment of either sign, [alignUp(d, a)] is [d + a] truncated
    towards zero to a multiple of [a]: it lies between zero and [d + a] and
    is less than one alignment away from [d + a]. *)
Theorem alignUp_truncates (d a r : Z) :
  alignUp d a = Ret r ->
  Z.rem r a = 0
  /\ Z.abs (d + a - r) < Z.abs a
  /\ (0 <= d + a -> 0 <= r <= d + a)
  /\ (d + a <= 0 -> d + a <= r <= 0).
Proof.
  intros Hr. apply alignUp_inv in Hr as (-> & Ha & _ & _ & _).
  destruct (trunc_multiple_between (d + a) a Ha) as (E & Hpos & Hneg).
  split; [rewrite Z.mul_comm; now apply Z.rem_mul|].
  split; [|split; assumption].
  rewrite <- E. replace (d + a - (d + a - Z.rem (d + a) a)) with (Z.rem (d + a) a) by lia.
  now apply Z.rem_bound_abs.
Qed.

Lemma alignUp_truncates_witness :
  Z.rem (-12) (-4) = 0 /\ Z.abs (-10 + -4 - -12) < Z.abs (-4).
Proof.
  assert (H : alignUp (-10) (-4) = Ret (-12)) by reflexivity.
  destruct (alignUp_truncates (-10) (-4) (-12) H) as (H1 & H2 & _).
  split; [exact H1 | exact H2].
Defined.

(** ** [alignUp] with a positive alignment *)

(** For [a > 0] and a sum [d + a] that is not negative, [alignUp(d, a)] is
    the least multiple of [a] strictly greater than [d]; it exceeds [d] by at
    most [a]. *)
Theorem alignUp_least_multiple_above (d a : Z) :
  Int.in_int64 d -> Int.in_int64 a -> 0 < a -> 0 <= d + a <= Int.INT64_MAX ->
  exists r, alignUp d a = Ret r
            /\ d < r <= d + a
            /\ Z.rem r a = 0
            /\ forall m, Z.rem m a = 0 -> d < m -> r <= m.
Proof.
  intros Hd Ha Hpos [H0 Hmax].
  exists (a * Z.quot (d + a) a). split; [apply alignUp_value; assumption|].
  destruct (IntFacts.rem_pos_divisor (d + a) a Hpos) as [E [[_ B]|[B _]]]; [|lia].
  split; [lia|]. split; [rewrite Z.mul_comm; apply Z.rem_mul; lia|].
  intros m Hm Hdm.
  apply Z.quot_exact in Hm; [|lia].
  set (k := Z.quot m a) in *. set (q := Z.quot (d + a) a) in *.
  destruct (Z.le_gt_cases q k) as [Hqk|Hqk]; [nia|].
  assert (k + 1 <= q) by lia. nia.
Qed.

Lemma alignUp_least_multiple_above_witness :
  exists r, alignUp 250 100 = Ret r
            /\ 250 < r <= 250 + 100
            /\ Z.rem r 100 = 0
            /\ forall m, Z.rem m 100 = 0 -> 250 < m -> r <= m.
Proof.
  apply (alignUp_least_multiple_above 250 100);
    unfold Int.in_int64, Int.INT64_MIN, Int.INT64_MAX; lia.
Defined.

(** For [a > 0] and a negative sum [d + a] the truncation goes the other
    way: the result is at least [d + a].  Unless [d] is itself a multiple of
    [a], the multiple just below the result is already greater than [d], so
    the result is the second multiple above [d], not the first. *)
Theorem alignUp_negative_sum (d a : Z) :
  Int.in_int64 d -> Int.in_int64 a -> 0 < a -> d + a < 0 ->
  exists r, alignUp d a = Ret r
            /\ d + a <= r <= 0
            /\ r < d + 2 * a
            /\ (Z.rem d a <> 0 -> Z.rem (r - a) a = 0 /\ d < r - a).
Proof.
  intros Hd Ha Hpos Hneg.
  assert (Hmax : d + a <= Int.INT64_MAX).
  { unfold Int.INT64_MAX. lia. }
  exists (a * Z.quot (d + a) a). split; [apply alignUp_value; assumption|].
  destruct (IntFacts.rem_pos_divisor (d + a) a Hpos) as [E [[B _]|[_ B]]]; [lia|].
  destruct (trunc_multiple_between (d + a) a ltac:(lia)) as (_ & _ & Hle).
  specialize (Hle ltac:(lia)).
  split; [lia|]. split; [lia|].
  intros Hnz.
  assert (Hr : Z.rem (d + a) a <> 0).
  { intros Hz. apply Hnz. rewrite Hz, Z.add_0_r in E.
    replace d with ((Z.quot (d + a) a - 1) * a) by lia.
    apply Z.rem_mul. lia. }
  split.
  - replace (a * Z.quot (d + a) a - a) with ((Z.quot (d + a) a - 1) * a) by lia.
    apply Z.rem_mul. lia.
  - lia.
Qed.

Lemma alignUp_negative_sum_witness :
  exists r, alignUp (-7) 3 = Ret r
            /\ -7 + 3 <= r <= 0
            /\ r < -7 + 2 * 3
            /\ (Z.rem (-7) 3 <> 0 -> Z.rem (r - 3) 3 = 0 /\ -7 < r - 3).
Proof.
  apply (alignUp_negative_sum (-7) 3);
    unfold Int.in_int64, Int.INT64_MIN, Int.INT64_MAX; lia.
Defined.

(** [alignUp] is monotone in the duration. *)
Theorem alignUp_monotone (d1 d2 a : Z) :
  Int.in_int64 d1 -> Int.in_int64 d2 -> Int.in_int64 a -> 0 < a ->
  d1 <= d2 -> d2 + a <= Int.INT64_MAX ->
  exists r1 r2, alignUp d1 a = Ret r1 /\ alignUp d2 a = Ret r2 /\ r1 <= r2.
Proof.
  intros H1 H2 Ha Hpos Hle Hmax.
  exists (a * Z.quot (d1 + a) a), (a * Z.quot (d2 + a) a).
  split; [apply alignUp_value; try assumption; lia|].
  split; [apply alignUp_value; assumption|].
  apply Z.mul_le_mono_nonneg_l; [lia|].
  apply Z.quot_le_mono; lia.
Qed.

Lemma alignUp_monotone_witness :
  exists r1 r2, alignUp 199 100 = Ret r1 /\ alignUp 200 100 = Ret r2 /\ r1 <= r2.
Proof.
  apply (alignUp_monotone 199 200 100);
    unfold Int.in_int64, Int.INT64_MIN, Int.INT64_MAX; lia.
Defined.

(** Aligning an aligned value moves it on by exactly one alignment. *)
Theorem alignUp_again (d a r : Z) :
  alignUp d a = Ret r -> 0 < a -> Int.in_int64 a -> r + a <= Int.INT64_MAX ->
  alignUp r a = Ret (r + a).
Proof.
  intros Hr Hpos Ha Hmax.
  apply alignUp_inv in Hr as (-> & _ & _ & _ & Hin).
  rewrite alignUp_value by assumption.
  f_equal.
  replace (a * Z.quot (d + a) a + a) with ((Z.quot (d + a) a + 1) * a) by lia.
  rewrite Z.quot_mul by lia. lia.
Qed.

Lemma alignUp_again_witness : alignUp 300 100 = Ret (300 + 100).
Proof.
  apply (alignUp_again 250 100 300);
    [reflexivity | lia | | ];
    unfold Int.in_int64, Int.INT64_MIN, Int.INT64_MAX; lia.
Defined.

(** For a duration that is not negative, the aligned value holds one more
    whole alignment than the duration did, hence at least one. *)
Theorem alignUp_quotient (d a : Z) :
  Int.in_int64 d -> Int.in_int64 a -> 0 <= d -> 0 < a -> d + a <= Int.INT64_MAX ->
  exists r, alignUp d a = Ret r
            /\ Z.quot r a = Z.quot d a + 1
            /\ 1 <= Z.quot r a.
Proof.
  intros Hd Ha H0 Hpos Hmax.
  exists (a * Z.quot (d + a) a). split; [apply alignUp_value; assumption|].
  assert (Hq : Z.quot (d + a) a = Z.quot d a + 1).
  { replace (d + a) with (d + 1 * a) by lia. apply Z.quot_add; [lia | nia]. }
  rewrite Z.mul_comm, Z.quot_mul by lia.
  split; [exact Hq|].
  pose proof (Z.quot_pos d a H0 Hpos). lia.
Qed.

Lemma alignUp_quotient_witness :
  exists r, alignUp 1000 100 = Ret r
            /\ Z.quot r 100 = Z.quot 1000 100 + 1
            /\ 1 <= Z.quot r 100.
Proof.
  apply (alignUp_quotient 1000 100);
    unfold Int.in_int64, Int.INT64_MIN, Int.INT64_MAX; lia.
Defined.

(** ** [eventProfilerEnabledForDevice]: one bit per device *)

Lemma land_pow2 (m n : Z) :
  0 <= n -> Z.land m (2 ^ n) = if Z.testbit m n then 2 ^ n else 0.
Proof.
  intros Hn. apply Z.bits_inj'. intros i Hi.
  rewrite Z.land_spec, Z.pow2_bits_eqb by lia.
  destruct (Z.eqb_spec n i) as [->|Hne].
  - rewrite andb_true_r. destruct (Z.testbit m i) eqn:E.
    + rewrite Z.pow2_bits_eqb by lia. now rewrite Z.eqb_refl.
    + now rewrite Z.bits_0.
  - rewrite andb_false_r. destruct (Z.testbit m n).
    + rewrite Z.pow2_bits_eqb by lia. symmetry. now apply Z.eqb_neq.
    + now rewrite Z.bits_0.
Qed.

Lemma to_int32_small (z : Z) : - 2 ^ 31 <= z < 2 ^ 31 -> Int.to_int32 z = z.
Proof.
  intros H. unfold Int.to_int32. rewrite Z.mod_small by lia. lia.
Qed.

Lemma uint8_high_bits (m dev : Z) :
  Int.in_uint8 m -> 8 <= dev -> Z.testbit m dev = false.
Proof.
  intros Hm Hd. unfold Int.in_uint8 in Hm.
  rewrite <- (Z.mod_small m (2 ^ 8)) by lia.
  apply Z.mod_pow2_bits_high. lia.
Qed.

(** For every shift count the [int] type admits, the function reads the bit
    of the mask at the device's index: a device is enabled exactly when its
    bit is set. *)
Theorem eventProfilerEnabledForDevice_testbit (c : Config) (dev : Z) :
  Int.in_uint8 (eventProfilerDeviceMask_ c) ->
  0 <= dev <= 31 ->
  eventProfilerEnabledForDevice c dev
  = Ret (Z.testbit (eventProfilerDeviceMask_ c) dev).
Proof.
  intros Hm Hd. unfold eventProfilerEnabledForDevice.
  rewrite shl32_one by lia. cbn [obind]. f_equal.
  destruct (Z.le_gt_cases 8 dev) as [Hhi|Hlo].
  - rewrite land_uint8_high; [|assumption|].
    + now rewrite uint8_high_bits.
    + rewrite to_int32_mod_256. now apply pow2_high_mod_256.
  - rewrite to_int32_small.
    + rewrite land_pow2 by lia.
      destruct (Z.testbit (eventProfilerDeviceMask_ c) dev); [|reflexivity].
      assert (0 < 2 ^ dev) by (apply Z.pow_pos_nonneg; lia).
      destruct (Z.eqb_spec 0 (2 ^ dev)); [lia | reflexivity].
    + assert (0 < 2 ^ dev) by (apply Z.pow_pos_nonneg; lia).
      assert (2 ^ dev < 2 ^ 31) by (apply Z.pow_lt_mono_r; lia).
      lia.
Qed.

Lemma eventProfilerEnabledForDevice_testbit_witness :
  eventProfilerEnabledForDevice sampleConfig 5 = Ret (Z.testbit 37 5).
Proof.
  apply (eventProfilerEnabledForDevice_testbit sampleConfig 5).
  - unfold Int.in_uint8. cbn. lia.
  - lia.
Defined.

(** The call has a defined result exactly for the device indices below 32:
    from 32 on the shift count reaches the width of [int]. *)
Theorem eventProfilerEnabledForDevice_returns_iff (c : Config) (dev : Z) :
  returns (eventProfilerEnabledForDevice c dev) <-> 0 <= dev < 32.
Proof.
  unfold eventProfilerEnabledForDevice, Int.shl32.
  destruct (Z.leb_spec 0 dev); destruct (Z.ltb_spec dev 32); cbn [andb obind];
    (split; [intros [b Hb]; (discriminate || lia) | intros; (lia || now eexists)]).
Qed.

(** ** [addEvents] and [addMetrics]: composition *)

(** Two additions amount to one addition of the union, in either order, and
    additions of events and of metrics do not interfere. *)
Theorem add_names_compose (A B : gset string) (c : Config) :
  addEvents A (addEvents B c) = addEvents (A ∪ B) c
  /\ addEvents A (addEvents B c) = addEvents B (addEvents A c)
  /\ addMetrics A (addMetrics B c) = addMetrics (A ∪ B) c
  /\ addMetrics A (addMetrics B c) = addMetrics B (addMetrics A c)
  /\ addEvents A (addMetrics B c) = addMetrics B (addEvents A c)
  /\ metricNames (addEvents A c) = metricNames c
  /\ eventNames (addMetrics B c) = eventNames c.
Proof.
  repeat match goal with |- _ /\ _ => split end; try reflexivity;
    unfold addEvents, addMetrics; cbn; f_equal;
    rewrite !set_insert_range_union; set_solver.
Qed.

(** An addition leaves the configuration as it is exactly when every added
    name is already there; adding no name is one such case. *)
Theorem add_names_noop_iff (N : gset string) (c : Config) :
  (addEvents N c = c <-> N ⊆ eventNames c)
  /\ (addMetrics N c = c <-> N ⊆ metricNames c)
  /\ addEvents ∅ c = c
  /\ addMetrics ∅ c = c.
Proof.
  assert (He : addEvents N c = c <-> N ⊆ eventNames c).
  { split.
    - intros H. apply (f_equal eventNames) in H.
      unfold eventNames, addEvents in H; cbn in H.
      rewrite set_insert_range_union in H. unfold eventNames. set_solver.
    - intros H. destruct c; unfold addEvents, eventNames in *; cbn in *. f_equal.
      rewrite set_insert_range_union. set_solver. }
  assert (Hm : addMetrics N c = c <-> N ⊆ metricNames c).
  { split.
    - intros H. apply (f_equal metricNames) in H.
      unfold metricNames, addMetrics in H; cbn in H.
      rewrite set_insert_range_union in H. unfold metricNames. set_solver.
    - intros H. destruct c; unfold addMetrics, metricNames in *; cbn in *. f_equal.
      rewrite set_insert_range_union. set_solver. }
  split; [exact He|]. split; [exact Hm|].
  assert (Hempty : forall s : gset string, set_insert_range s ∅ = s).
  { intros s. rewrite set_insert_range_union. set_solver. }
  split.
  - destruct c; unfold addEvents; cbn. now rewrite Hempty.
  - destruct c; unfold addMetrics; cbn. now rewrite Hempty.
Qed.

(** The number of names never shrinks and grows by at most the number of
    added names; it grows by exactly that number when none was there. *)
Theorem addEvents_size (N : gset string) (c : Config) :
  (size (eventNames c) <= size (eventNames (addEvents N c)))%nat
  /\ (size (eventNames (addEvents N c)) <= size (eventNames c) + size N)%nat
  /\ (eventNames c ## N ->
      size (eventNames (addEvents N c)) = (size (eventNames c) + size N)%nat).
Proof.
  assert (E : eventNames (addEvents N c) = eventNames c ∪ N)
    by apply set_insert_range_union.
  rewrite E. split; [|split].
  - apply subseteq_size. set_solver.
  - rewrite size_union_alt. apply Nat.add_le_mono_l, subseteq_size. set_solver.
  - intros Hd. now apply size_union.
Qed.

Lemma addEvents_size_witness :
  size (eventNames (addEvents {[ "gld_inst"%string ]} sampleConfig))
  = (size (eventNames sampleConfig) + size ({[ "gld_inst"%string ]} : gset string))%nat.
Proof.
  apply (addEvents_size {[ "gld_inst"%string ]} sampleConfig).
  unfold eventNames; cbn. apply disjoint_singleton_l.
  intros H. apply elem_of_singleton in H. discriminate.
Defined.


(** ** The inline setters *)

(** Shortening the sample period keeps [samplesPerReport] inside its range:
    the quotient [reportPeriod / samplePeriod] can only grow. *)
Theorem setSamplePeriod_shorter_keeps_range (period : Z) (c : Config) :
  samplesPerReport_in_range c ->
  0 < period <= samplePeriod c ->
  0 <= reportPeriod c ->
  samplesPerReport_in_range (setSamplePeriod period c).
Proof.
  unfold samplesPerReport_in_range, samplesPerReport, reportPeriod, samplePeriod, count.
  cbn. intros [H1 H2] Hp Hr.
  pose proof (Z.quot_le_compat_l (reportPeriod_ c) period (samplePeriod_ c) Hr Hp).
  lia.
Qed.

Lemma setSamplePeriod_shorter_keeps_range_witness :
  samplesPerReport_in_range (setSamplePeriod 50 sampleConfig).
Proof.
  apply setSamplePeriod_shorter_keeps_range.
  - unfold samplesPerReport_in_range, samplesPerReport, reportPeriod, samplePeriod, count.
    cbn. assert (Q : Z.quot 1000 100 = 10) by reflexivity. rewrite Q. lia.
  - unfold samplePeriod. cbn. lia.
  - unfold reportPeriod. cbn. lia.
Defined.

Lemma run_setter_frame (c : Config) (call : setter_call) :
  percentiles (run_setter c call) = percentiles c
  /\ eventProfilerDeviceMask_ (run_setter c call) = eventProfilerDeviceMask_ c
  /\ reportPeriod (run_setter c call) = reportPeriod c
  /\ eventLogFile (run_setter c call) = eventLogFile c
  /\ activitiesLogFile (run_setter c call) = activitiesLogFile c
  /\ requestTimestamp (run_setter c call) = requestTimestamp c
  /\ eventProfilerOnDemandStartTime (run_setter c call)
     = eventProfilerOnDemandStartTime c
  /\ featureConfigs_ (run_setter c call) = featureConfigs_ c
  /\ eventNames c ⊆ eventNames (run_setter c call)
  /\ metricNames c ⊆ metricNames (run_setter c call).
Proof.
  destruct call; cbn;
    repeat match goal with |- _ /\ _ => split end;
    try reflexivity;
    unfold eventNames, metricNames; cbn;
    rewrite ?set_insert_range_union; set_solver.
Qed.

(** Whatever sequence of inline setters is called, the percentiles, the
    device mask, the report period, the two log files, the request
    timestamp, the on-demand start time and the feature map stay as they
    were, and no event or metric name is ever removed. *)
Theorem run_setters_frame (calls : list setter_call) (c : Config) :
  percentiles (run_setters c calls) = percentiles c
  /\ eventProfilerDeviceMask_ (run_setters c calls) = eventProfilerDeviceMask_ c
  /\ reportPeriod (run_setters c calls) = reportPeriod c
  /\ eventLogFile (run_setters c calls) = eventLogFile c
  /\ activitiesLogFile (run_setters c calls) = activitiesLogFile c
  /\ requestTimestamp (run_setters c calls) = requestTimestamp c
  /\ eventProfilerOnDemandStartTime (run_setters c calls)
     = eventProfilerOnDemandStartTime c
  /\ featureConfigs_ (run_setters c calls) = featureConfigs_ c
  /\ eventNames c ⊆ eventNames (run_setters c calls)
  /\ metricNames c ⊆ metricNames (run_setters c calls).
Proof.
  unfold run_setters. revert c.
  induction calls as [|call calls IH]; intros c; cbn [foldl].
  - repeat split; reflexivity.
  - destruct (IH (run_setter c call))
      as (I1 & I2 & I3 & I4 & I5 & I6 & I7 & I8 & I9 & I10).
    destruct (run_setter_frame c call)
      as (F1 & F2 & F3 & F4 & F5 & F6 & F7 & F8 & F9 & F10).
    rewrite I1, I2, I3, I4, I5, I6, I7, I8.
    repeat match goal with |- _ /\ _ => split end; try assumption.
    + now transitivity (eventNames (run_setter c call)).
    + now transitivity (metricNames (run_setter c call)).
Qed.

(** ** The on-demand end time: definedness, zero duration, order *)

Section OnDemandEndTime.

Variable ticks_per_second : Z.

(** The end time has a defined value exactly when the duration, converted to
    clock ticks, and its sum with the start time both fit the 64-bit count. *)
Theorem eventProfilerOnDemandEndTime_returns_iff (c : Config) :
  returns (eventProfilerOnDemandEndTime ticks_per_second c)
  <-> Int.in_int64 (count (eventProfilerOnDemandDuration c) * ticks_per_second)
      /\ Int.in_int64 (time_since_epoch (eventProfilerOnDemandStartTime c)
                       + count (eventProfilerOnDemandDuration c) * ticks_per_second).
Proof.
  unfold eventProfilerOnDemandEndTime, eventProfilerOnDemandDuration,
    eventProfilerOnDemandStartTime.
  split.
  - intros [e He]. apply time_point_plus_inv in He as (_ & Hm & Ha). auto.
  - intros [Hm Ha]. eexists. now apply time_point_plus_ok.
Qed.

(** After [setEventProfilerOnDemandDuration(0)] the end time is the start
    time, so the window is empty: no time is inside it. *)
Theorem eventProfilerOnDemandEndTime_zero_duration (c : Config) :
  Int.in_int64 (time_since_epoch (eventProfilerOnDemandStartTime c)) ->
  eventProfilerOnDemandEndTime ticks_per_second (setEventProfilerOnDemandDuration 0 c)
  = Ret (eventProfilerOnDemandStartTime c)
  /\ forall now,
       eventProfilerOnDemandActive ticks_per_second
         (setEventProfilerOnDemandDuration 0 c) now = Ret false.
Proof.
  intros Hs.
  assert (E : eventProfilerOnDemandEndTime ticks_per_second
                (setEventProfilerOnDemandDuration 0 c)
              = Ret (eventProfilerOnDemandStartTime c)).
  { unfold eventProfilerOnDemandEndTime, eventProfilerOnDemandStartTime in *. cbn.
    rewrite time_point_plus_ok.
    - unfold count. rewrite Z.mul_0_l, Z.add_0_r.
      now destruct (eventProfilerOnDemandTimestamp_ c).
    - unfold count. rewrite Z.mul_0_l.
      unfold Int.in_int64, Int.INT64_MIN, Int.INT64_MAX. lia.
    - unfold count. now rewrite Z.mul_0_l, Z.add_0_r. }
  split; [exact E|].
  intros now. unfold eventProfilerOnDemandActive. rewrite E. cbn [obind]. f_equal.
  unfold eventProfilerOnDemandStartTime. cbn.
  apply andb_false_iff.
  destruct (Z.leb_spec (time_since_epoch (eventProfilerOnDemandTimestamp_ c))
              (time_since_epoch now)); [right | left; reflexivity].
  apply Z.ltb_ge. assumption.
Qed.

(** With a clock that ticks forward, a longer duration never ends earlier,
    and the end time is not before the start time exactly when the duration
    is not negative. *)
Theorem eventProfilerOnDemandEndTime_monotone (d1 d2 : seconds) (c : Config)
    (e1 e2 : time_point) :
  0 < ticks_per_second ->
  eventProfilerOnDemandEndTime ticks_per_second
    (setEventProfilerOnDemandDuration d1 c) = Ret e1 ->
  eventProfilerOnDemandEndTime ticks_per_second
    (setEventProfilerOnDemandDuration d2 c) = Ret e2 ->
  (d1 <= d2 <-> time_since_epoch e1 <= time_since_epoch e2)
  /\ (0 <= d1 <->
      time_since_epoch (eventProfilerOnDemandStartTime c) <= time_since_epoch e1).
Proof.
  intros Ht H1 H2.
  unfold eventProfilerOnDemandEndTime, eventProfilerOnDemandStartTime in *.
  cbn in H1, H2.
  apply time_point_plus_inv in H1 as (-> & _ & _).
  apply time_point_plus_inv in H2 as (-> & _ & _).
  unfold count. split; split; intros H; nia.
Qed.

End OnDemandEndTime.

Lemma eventProfilerOnDemandEndTime_zero_duration_witness :
  eventProfilerOnDemandEndTime (10 ^ 9) (setEventProfilerOnDemandDuration 0 sampleConfig)
  = Ret (eventProfilerOnDemandStartTime sampleConfig).
Proof.
  apply (eventProfilerOnDemandEndTime_zero_duration (10 ^ 9) sampleConfig).
  unfold Int.in_int64, Int.INT64_MIN, Int.INT64_MAX. cbn. lia.
Defined.

Lemma eventProfilerOnDemandEndTime_monotone_witness :
  (10 <= 30 <-> 15000000000 <= 35000000000)
  /\ (0 <= 10 <-> 5000000000 <= 15000000000).
Proof.
  apply (eventProfilerOnDemandEndTime_monotone (10 ^ 9) 10 30 sampleConfig
           (TimePoint 15000000000) (TimePoint 35000000000));
    [lia | reflexivity | reflexivity].
Defined.

(** ** [clone]: what is allocated *)

Section CloneFootprint.

Context {Feature : Type}.
Implicit Types (h : gmap loc (object Feature)) (c : Config) (l p cfg this : loc).

Lemma cloneFeatures_loop_footprint (fs : list (string * loc)) :
  forall cfg h c,
    NoDup fs.*1 ->
    h !! cfg = Some (ConfigObj c) ->
    (forall name p, (name, p) ∈ fs -> exists f, h !! p = Some (FeatureObj f)) ->
    exists h' F',
      cloneFeatures_loop Feature fs cfg h = Ret h'
      /\ h' !! cfg = Some (ConfigObj (set_featureConfigs F' c))
      /\ (forall name, name ∉ fs.*1 -> F' !! name = featureConfigs_ c !! name)
      /\ (forall name, name ∈ fs.*1 -> exists l, F' !! name = Some l /\ h !! l = None)
      /\ (forall l, l ∈ dom h' <->
                    l ∈ dom h \/ exists name, name ∈ fs.*1 /\ F' !! name = Some l)
      /\ (forall n1 n2 l, n1 ∈ fs.*1 -> n2 ∈ fs.*1 ->
                          F' !! n1 = Some l -> F' !! n2 = Some l -> n1 = n2).
Proof.
  induction fs as [|[n p] rest IH]; intros cfg h c Hnd Hcfg Hfs.
  - exists h, (featureConfigs_ c). cbn. split; [reflexivity|].
    split; [destruct c; exact Hcfg|]. split; [auto|].
    split; [intros name Hin; inversion Hin|].
    split.
    + intros l. split; [auto|]. intros [Hl|(name & Hin & _)]; [exact Hl | inversion Hin].
    + intros n1 n2 l Hin. inversion Hin.
  - cbn in Hnd. apply NoDup_cons in Hnd as [Hn Hnd].
    destruct (Hfs n p) as [f Hp]; [left|].
    destruct (feature_cloneDerived_ok p h f Hp) as (q & Hq & Hfresh).
    assert (Hqcfg : q <> cfg) by (intros ->; congruence).
    cbn [cloneFeatures_loop]. rewrite Hq. cbn [obind fst snd].
    unfold assign_feature. rewrite lookup_insert_ne by exact Hqcfg.
    rewrite Hcfg. cbn [obind].
    set (c2 := set_featureConfigs (<[n := q]> (featureConfigs_ c)) c).
    set (h2 := <[cfg := ConfigObj c2]> (<[q := FeatureObj f]> h)).
    assert (Hdom2 : forall l, l ∈ dom h2 <-> l ∈ dom h \/ l = q).
    { intros l. unfold h2. rewrite !dom_insert_L, !elem_of_union, !elem_of_singleton.
      split; [intros [->|[->|H]]; auto; left; apply elem_of_dom; eauto | tauto]. }
    assert (Hnone2 : forall l, h2 !! l = None -> h !! l = None /\ l <> q).
    { intros l Hl. apply not_elem_of_dom in Hl. rewrite Hdom2 in Hl.
      split; [apply not_elem_of_dom; tauto | tauto]. }
    destruct (IH cfg h2 c2) as (h' & F' & Hrun & Hc' & Hout & Hin & Hdom & Hinj).
    + exact Hnd.
    + unfold h2. apply lookup_insert_eq.
    + intros name p0 Hm. destruct (Hfs name p0) as [f0 Hf0]; [now right|].
      exists f0. unfold h2.
      rewrite lookup_insert_ne by (intros ->; congruence).
      rewrite lookup_insert_ne by (intros ->; congruence). exact Hf0.
    + assert (HFn : F' !! n = Some q).
      { rewrite (Hout n Hn). unfold c2; cbn. apply lookup_insert_eq. }
      exists h', F'. split; [exact Hrun|]. split; [exact Hc'|].
      split.
      { intros name Hname. cbn in Hname.
        apply not_elem_of_cons in Hname as [Hne Hname].
        rewrite (Hout name Hname). unfold c2; cbn. now rewrite lookup_insert_ne. }
      split.
      { intros name Hname. cbn in Hname. apply elem_of_cons in Hname as [->|Hname].
        - exists q. split; [exact HFn | exact Hfresh].
        - destruct (Hin name Hname) as (l & Hl & Hl2).
          exists l. split; [exact Hl | now apply Hnone2]. }
      split.
      { intros l. rewrite Hdom, Hdom2. cbn. split.
        - intros [[Hl| ->]|(name & Hname & Hl)].
          + now left.
          + right. exists n. split; [left | exact HFn].
          + right. exists name. split; [now right | exact Hl].
        - intros [Hl|(name & Hname & Hl)]; [tauto|].
          apply elem_of_cons in Hname as [->|Hname].
          + left. right. congruence.
          + right. eauto. }
      intros n1 n2 l H1 H2 Hl1 Hl2. cbn in H1, H2.
      apply elem_of_cons in H1 as [->|H1]; apply elem_of_cons in H2 as [->|H2].
      * reflexivity.
      * exfalso. destruct (Hin n2 H2) as (l' & Hl' & Hn').
        apply Hnone2 in Hn' as [_ Hne]. congruence.
      * exfalso. destruct (Hin n1 H1) as (l' & Hl' & Hn').
        apply Hnone2 in Hn' as [_ Hne]. congruence.
      * eapply Hinj; eassumption.
Qed.

(** [clone()] allocates the clone and one object per feature sub-config and
    nothing else: the new heap holds, beside what was there, exactly the
    addresses the clone owns.  These are pairwise distinct: the clone's
    address is none of its features', and two feature names of the clone
    never share an object, even where the source held one object under two
    names. *)
Theorem clone_footprint h this c :
  h !! this = Some (ConfigObj c) ->
  features_allocated Feature h c ->
  exists cfg h' c',
    clone Feature this h = Ret (cfg, h')
    /\ h' !! cfg = Some (ConfigObj c')
    /\ dom h' = dom h ∪ owned cfg c'
    /\ (cfg ∉ (map_img (featureConfigs_ c') : gset loc))
    /\ (forall n1 n2 l, featureConfigs_ c' !! n1 = Some l ->
                        featureConfigs_ c' !! n2 = Some l -> n1 = n2).
Proof.
  intros Hthis Hfeat. unfold clone. rewrite Hthis.
  destruct (new_fresh (ConfigObj c) h) as [Hfresh Hnew].
  destruct (new Feature (ConfigObj c) h) as [cfg h1] eqn:En.
  cbn [fst snd] in Hfresh, Hnew. subst h1.
  assert (Hne : this <> cfg) by (intros ->; congruence).
  unfold cloneFeaturesInto. rewrite lookup_insert_ne by congruence.
  rewrite Hthis.
  assert (Hnames : forall name,
             name ∈ (map_to_list (featureConfigs_ c)).*1
             <-> is_Some (featureConfigs_ c !! name)).
  { intros name. rewrite list_elem_of_fmap. split.
    - intros ([n p] & -> & Hm). apply elem_of_map_to_list in Hm. cbn. eauto.
    - intros [p Hp]. exists (name, p). split; [reflexivity|].
      now apply elem_of_map_to_list. }
  destruct (cloneFeatures_loop_footprint (map_to_list (featureConfigs_ c))
              cfg (<[cfg := ConfigObj c]> h) c)
    as (h' & F' & Hrun & Hc' & Hout & Hin & Hdom & Hinj).
  { apply NoDup_fst_map_to_list. }
  { apply lookup_insert_eq. }
  { intros name p Hm. apply elem_of_map_to_list in Hm.
    destruct (Hfeat name p Hm) as [f Hf]. exists f.
    rewrite lookup_insert_ne by (intros ->; congruence). exact Hf. }
  rewrite Hrun. cbn [obind].
  assert (HF : forall name l, F' !! name = Some l ->
                 name ∈ (map_to_list (featureConfigs_ c)).*1).
  { intros name l Hl.
    destruct (decide (name ∈ (map_to_list (featureConfigs_ c)).*1)) as [|Hno];
      [assumption|].
    rewrite (Hout name Hno) in Hl. apply Hnames. eauto. }
  exists cfg, h', (set_featureConfigs F' c).
  split; [reflexivity|]. split; [exact Hc'|]. split; [|split].
  - apply set_eq. intros l. rewrite Hdom. unfold owned. cbn.
    rewrite dom_insert_L, !elem_of_union, elem_of_singleton, elem_of_map_img.
    split.
    + intros [[->|Hl]|(name & _ & Hl)];
        [right; left; reflexivity | left; exact Hl | right; right; eauto].
    + intros [Hl|[->|[name Hl]]];
        [left; right; exact Hl | left; left; reflexivity |].
      right. exists name. split; [eapply HF; eassumption | exact Hl].
  - cbn. intros Hm. apply elem_of_map_img in Hm as [name Hl].
    destruct (Hin name (HF _ _ Hl)) as (l & Hl' & Hnone).
    assert (l = cfg) by congruence. subst l.
    rewrite lookup_insert_eq in Hnone. discriminate.
  - cbn. intros n1 n2 l H1 H2.
    eapply Hinj; [eapply HF | eapply HF | |]; eassumption.
Qed.

End CloneFootprint.

Lemma clone_footprint_witness :
  exists cfg h' c',
    clone string 1%positive sampleHeap = Ret (cfg, h')
    /\ h' !! cfg = Some (ConfigObj c')
    /\ dom h' = dom sampleHeap ∪ owned cfg c'.
Proof.
  assert (H1 : sampleHeap !! 1%positive = Some (ConfigObj sampleConfig))
    by reflexivity.
  assert (Hall : features_allocated string sampleHeap sampleConfig).
  { intros name p Hp. cbn in Hp.
    apply lookup_singleton_Some in Hp as [_ <-]. eexists. reflexivity. }
  destruct (clone_footprint sampleHeap 1%positive sampleConfig H1 Hall)
    as (cfg & h' & c' & Hrun & Hcfg & Hdom & _).
  exists cfg, h', c'. auto.
Defined.
